(** * The Dell PowerConnect 55xx console driver (haas/ext/switches/dell.py)

    A shallow embedding of the driver's session class [_Session]: the
    commands it writes to the console, the expect loop that assembles the
    key/value map of [show int sw <interface>], and the VLAN extractor
    [get_port_networks].

    Python 2 byte strings are [string]; Python ints are [Z]; a [dict] is a
    [gmap]; code that talks to the console runs in a state-and-exception
    monad over the console object. *)

From Stdlib Require Import ZArith NArith Ascii Lia.
From stdpp Require Import base option list strings gmap pretty.

(** ** Python exceptions and results *)

(** The exceptions this module can let escape: [pexpect.TIMEOUT] and
    [pexpect.EOF] from a wait, [ValueError] from a failed tuple unpacking,
    [KeyError] from a dict subscript. *)
Inductive exn : Type :=
  | TIMEOUT
  | EOF
  | ValueError
  | KeyError (key : string).

(** The name of the exception's class. *)
Definition exn_class (e : exn) : string :=
  match e with
  | TIMEOUT => "TIMEOUT"
  | EOF => "EOF"
  | ValueError => "ValueError"
  | KeyError _ => "KeyError"
  end.

Inductive Res (A : Type) : Type :=
  | Ok (a : A)
  | Raise (e : exn).
Arguments Ok {A} a.
Arguments Raise {A} e.

Global Instance Res_ret : MRet Res := λ A a, Ok a.
Global Instance Res_bind : MBind Res := λ A B f m,
  match m with
  | Ok a => f a
  | Raise e => Raise e
  end.

(** ** Python string primitives *)

Module Py.

(** [\d] on a byte string: the ten ASCII digits. *)
Definition is_digit (c : ascii) : bool :=
  (48 <=? N_of_ascii c)%N && (N_of_ascii c <=? 57)%N.

(** [str.isspace] on one byte: space, \t, \n, \v, \f, \r. *)
Definition is_space (c : ascii) : bool :=
  (N_of_ascii c =? 32)%N || ((9 <=? N_of_ascii c)%N && (N_of_ascii c <=? 13)%N).

(** Membership test used by [s.strip(chars)]. *)
Fixpoint mem (c : ascii) (chars : string) : bool :=
  match chars with
  | "" => false
  | String d chars' => if decide (c = d) then true else mem c chars'
  end.

Fixpoint lstrip (p : ascii → bool) (s : string) : string :=
  match s with
  | "" => ""
  | String c s' => if p c then lstrip p s' else s
  end.

Fixpoint rstrip (p : ascii → bool) (s : string) : string :=
  match s with
  | "" => ""
  | String c s' =>
      match rstrip p s' with
      | "" => if p c then "" else String c ""
      | r => String c r
      end
  end.

(** [s.strip()] *)
Definition strip (s : string) : string := rstrip is_space (lstrip is_space s).

(** [s.strip(chars)] *)
Definition strip_chars (chars s : string) : string :=
  rstrip (λ c, mem c chars) (lstrip (λ c, mem c chars) s).

(** [s.split(sep)] for a one-character separator: never the empty list. *)
Fixpoint split (sep : ascii) (s : string) : list string :=
  match s with
  | "" => [""]
  | String c s' =>
      if decide (c = sep) then "" :: split sep s'
      else match split sep s' with
           | x :: xs => String c x :: xs
           | [] => [String c ""]
           end
  end.

(** [s.split(sep, 1)]: at most one cut, at the first separator. *)
Fixpoint split1 (sep : ascii) (s : string) : list string :=
  match s with
  | "" => [""]
  | String c s' =>
      if decide (c = sep) then [""; s']
      else match split1 sep s' with
           | x :: xs => String c x :: xs
           | [] => [String c ""]
           end
  end.

(** [a, b = xs]: anything but two elements raises [ValueError]. *)
Definition unpack2 (xs : list string) : Res (string * string) :=
  match xs with
  | [a; b] => Ok (a, b)
  | _ => Raise ValueError
  end.

(** [s[:-1]] *)
Fixpoint drop_last (s : string) : string :=
  match s with
  | "" => ""
  | String c "" => ""
  | String c s' => String c (drop_last s')
  end.

(** The longest prefix of digits: what [(\d+)] captures when it matches at
    the start of [s]. *)
Fixpoint digit_run (s : string) : string :=
  match s with
  | "" => ""
  | String c s' => if is_digit c then String c (digit_run s') else ""
  end.

(** [re.match(re.compile(r'(\d+)'), s)], reduced to [match.groups()[0]];
    [None] when [s] does not start with a digit. *)
Definition match_num (s : string) : option string :=
  match digit_run s with
  | "" => None
  | ds => Some ds
  end.

Definition digit_val (c : ascii) : Z := Z.of_N (N_of_ascii c) - 48.

Fixpoint int_acc (acc : Z) (s : string) : Z :=
  match s with
  | "" => acc
  | String c s' => int_acc (acc * 10 + digit_val c) s'
  end.

(** [int(s)] on a run of decimal digits. *)
Definition int (s : string) : Z := int_acc 0 s.

(** [d[k]] *)
Definition getitem (d : gmap string string) (k : string) : Res string :=
  match d !! k with
  | Some x => Ok x
  | None => Raise (KeyError k)
  end.

End Py.

(** ** The VLAN extractor: the body of the loop of [get_port_networks] *)

Definition native_field : string := "Trunking Native Mode VLAN".
Definition trunk_field : string := "Trunking VLANs Enabled".

(** Lines 149-156: one sub-token of a range token. *)
Definition token_networks (num_str : string) : list (string * Z) :=
  let num_str := Py.strip num_str in
  match Py.match_num num_str with
  | Some num_str => [("vlan/" +:+ num_str, Py.int num_str)]
  | None => []
  end.

(** Lines 147-156: the two nested loops over the "Trunking VLANs Enabled"
    value. *)
Definition trunked_networks (field : string) : list (string * Z) :=
  flat_map (λ range_str, flat_map token_networks (Py.split "-"%char range_str))
           (Py.split ","%char field).

(** Lines 135-144. *)
Definition native_vlan (field : string) : option Z :=
  match Py.match_num (Py.strip field) with
  | Some num_str => Some (Py.int num_str)
  | None => None
  end.

(** Lines 135-158 for one value [v] of [port_configs]. *)
Definition port_networks (v : gmap string string) : Res (list (string * Z)) :=
  native_raw ← Py.getitem v native_field;
  let native := native_vlan native_raw in
  range_str ← Py.getitem v trunk_field;
  let networks := trunked_networks range_str in
  mret (match native with
        | Some n => networks ++ [("vlan/native", n)]
        | None => networks
        end).

(** ** Python's [re]: [re.escape] and the patterns it produces *)

Module Re.

Definition is_alnum (c : ascii) : bool :=
  let n := N_of_ascii c in
  ((48 <=? n) && (n <=? 57) || (65 <=? n) && (n <=? 90)
   || (97 <=? n) && (n <=? 122))%N.

(** [re.escape] of Python 2.7: every byte outside [a-zA-Z0-9] gets a
    backslash, and NUL becomes the octal escape [\000]. *)
Fixpoint escape (pattern : string) : string :=
  match pattern with
  | "" => ""
  | String c rest =>
      if is_alnum c then String c (escape rest)
      else if decide (c = "000"%char) then "\000" +:+ escape rest
      else String "\"%char (String c (escape rest))
  end.

(** The part of the pattern syntax needed to read prompts: literal bytes,
    backslash escapes of non-alphanumeric bytes, [\000], the wildcard [.]
    and the postfix repetitions [*], [+], [?]. Anything else (classes,
    groups, anchors, alternation, letter escapes) is outside the fragment
    and [parse] answers [None]. *)
Inductive atom : Type :=
  | Lit (c : ascii)
  | Dot.

Inductive quant : Type := One | Star | Plus | Opt.

Inductive pstate : Type :=
  | Plain        (* between atoms *)
  | Esc          (* after a backslash *)
  | EscZ (n : nat). (* after a backslash and n+1 zeros *)

Definition is_meta (c : ascii) : bool :=
  Py.mem c "[]()|^${}".

Definition quant_of (c : ascii) : option quant :=
  if decide (c = "*"%char) then Some Star
  else if decide (c = "+"%char) then Some Plus
  else if decide (c = "?"%char) then Some Opt
  else None.

(** [acc] holds the atoms read so far, last one first. *)
Fixpoint parse_go (st : pstate) (acc : list (atom * quant)) (s : string)
  : option (list (atom * quant)) :=
  match s with
  | "" => match st with Plain => Some (rev acc) | _ => None end
  | String c s' =>
      match st with
      | Plain =>
          if decide (c = "\"%char) then parse_go Esc acc s'
          else if decide (c = "."%char) then parse_go Plain ((Dot, One) :: acc) s'
          else match quant_of c with
               | Some q =>
                   match acc with
                   | (a, One) :: acc' => parse_go Plain ((a, q) :: acc') s'
                   | _ => None
                   end
               | None =>
                   if is_meta c then None
                   else parse_go Plain ((Lit c, One) :: acc) s'
               end
      | Esc =>
          if decide (c = "0"%char) then parse_go (EscZ 0) acc s'
          else if is_alnum c then None
          else parse_go Plain ((Lit c, One) :: acc) s'
      | EscZ 0 =>
          if decide (c = "0"%char) then parse_go (EscZ 1) acc s' else None
      | EscZ _ =>
          if decide (c = "0"%char)
          then parse_go Plain ((Lit "000"%char, One) :: acc) s'
          else None
      end
  end.

Definition parse (pattern : string) : option (list (atom * quant)) :=
  parse_go Plain [] pattern.

Definition atom_ok (a : atom) (c : ascii) : bool :=
  match a with
  | Lit d => bool_decide (c = d)
  | Dot => negb (bool_decide (c = "010"%char))
  end.

(** Does the whole of [s] match the sequence of atoms? *)
Fixpoint accepts (items : list (atom * quant)) (s : string) : bool :=
  match items with
  | [] => match s with "" => true | _ => false end
  | (a, q) :: items' =>
      let star :=
        fix star (s : string) : bool :=
          accepts items' s
          || match s with
             | String c s' => atom_ok a c && star s'
             | "" => false
             end in
      match q with
      | One => match s with
               | String c s' => atom_ok a c && accepts items' s'
               | "" => false
               end
      | Opt => accepts items' s
               || match s with
                  | String c s' => atom_ok a c && accepts items' s'
                  | "" => false
                  end
      | Star => star s
      | Plus => match s with
                | String c s' => atom_ok a c && star s'
                | "" => false
                end
      end
  end.

(** [pattern] matches exactly the text [s]. *)
Definition fullmatch (pattern s : string) : bool :=
  match parse pattern with
  | Some items => accepts items s
  | None => false
  end.

End Re.

(** ** The console *)

(** [pexpect.spawn] is an external library. Its child is modelled by what the
    driver can observe of it: each wait ends in a match, chosen among the
    patterns given and with its text, in [pexpect.TIMEOUT] or in
    [pexpect.EOF]. The [script] lists the outcomes of the waits to come; a
    script that has run dry is a switch that stays silent. *)
Inductive outcome : Type :=
  | Matched (index : nat) (text : string)
  | TimedOut
  | Closed.

(** What the driver writes. *)
Inductive call : Type :=
  | Sendline (line : string)
  | Send (s : string).

Record Console : Type := mkConsole {
  script : list outcome;
  written : list call;
  after : string
}.

Global Instance exn_eq_dec : EqDecision exn.
Proof. solve_decision. Defined.

Global Instance Res_eq_dec {A : Type} `{EqDecision A} : EqDecision (Res A).
Proof. solve_decision. Defined.

Global Instance outcome_eq_dec : EqDecision outcome.
Proof. solve_decision. Defined.

Global Instance call_eq_dec : EqDecision call.
Proof. solve_decision. Defined.

Global Instance Console_eq_dec : EqDecision Console.
Proof. solve_decision. Defined.

Definition M (A : Type) : Type := Console → Res A * Console.

Global Instance M_ret : MRet M := λ A a c, (Ok a, c).
Global Instance M_bind : MBind M := λ A B f m c,
  match m c with
  | (Ok a, c') => f a c'
  | (Raise e, c') => (Raise e, c')
  end.

Definition lift {A : Type} (r : Res A) : M A := λ c, (r, c).

Module console.

Definition sendline (line : string) : M unit := λ c,
  (Ok (), mkConsole (script c) (written c ++ [Sendline line]) (after c)).

Definition send (s : string) : M unit := λ c,
  (Ok (), mkConsole (script c) (written c ++ [Send s]) (after c)).

(** [console.expect(patterns)]: the index of the pattern that matched;
    the matched text is left in [console.after]. *)
Definition expect (patterns : list string) : M nat := λ c,
  match script c with
  | Matched index text :: rest => (Ok index, mkConsole rest (written c) text)
  | TimedOut :: rest => (Raise TIMEOUT, mkConsole rest (written c) (after c))
  | Closed :: rest => (Raise EOF, mkConsole rest (written c) (after c))
  | [] => (Raise TIMEOUT, c)
  end.

Definition get_after : M string := λ c, (Ok (after c), c).

End console.

(** ** The session *)

(** [haas.model.Switch], reduced to the columns of [PowerConnect55xx]. *)
Record Switch : Type := mkSwitch {
  hostname : string;
  username : string;
  password : string
}.

(** [haas.model.Port] is not part of this module: the driver reads its
    [label] and uses the object as a dict key; [port_id] stands for the
    object's identity. *)
Record Port : Type := mkPort {
  port_id : N;
  label : string
}.

Global Instance Port_eq_dec : EqDecision Port.
Proof. solve_decision. Defined.

Global Instance Port_countable : Countable Port :=
  inj_countable' (λ p, (port_id p, label p)) (λ t, mkPort t.1 t.2)
                 (λ p, match p with mkPort _ _ => eq_refl end).

Record Session : Type := mkSession {
  config_prompt : string;
  if_prompt : string;
  main_prompt : string;
  switch : Switch
}.

Definition _sendline (self : Session) (line : string) : M unit :=
  console.sendline line.

(** The bytes of [' \r\n\t']. *)
Definition blanks : string :=
  String " " (String "013" (String "010" (String "009" ""))).

(** [_Session.connect]; the initial state is the console just spawned by
    [pexpect.spawn('telnet ' + switch.hostname)]. *)
Definition connect (switch : Switch) : M Session :=
  _ ← console.expect ["User Name:"];
  _ ← console.sendline (username switch);
  _ ← console.expect ["Password:"];
  _ ← console.sendline (password switch);
  _ ← console.expect ["[\r\n]+.+#"];
  cmd_prompt ← console.get_after;
  let cmd_prompt := Py.strip_chars blanks cmd_prompt in
  let config_prompt := Re.escape (Py.drop_last cmd_prompt +:+ "(config)#") in
  let if_prompt := Re.escape (Py.drop_last cmd_prompt +:+ "(config-if)#") in
  let main_prompt := Re.escape cmd_prompt in
  mret (mkSession config_prompt if_prompt main_prompt switch).

Definition enter_if_prompt (self : Session) (interface : string) : M unit :=
  _ ← _sendline self "config";
  _sendline self ("int " +:+ interface).

Definition exit_if_prompt (self : Session) : M unit :=
  _ ← _sendline self "exit";
  _sendline self "exit".

Definition enable_vlan (self : Session) (vlan_id : string) : M unit :=
  _ ← _sendline self "sw mode trunk";
  _sendline self ("sw trunk allowed vlan add " +:+ vlan_id).

Definition disable_vlan (self : Session) (vlan_id : string) : M unit :=
  _sendline self ("sw trunk allowed vlan remove " +:+ vlan_id).

Definition set_native (self : Session) (old : option string) (new : string)
  : M unit :=
  _ ← match old with
      | Some old => disable_vlan self old
      | None => mret ()
      end;
  _ ← _sendline self ("sw trunk native vlan " +:+ new);
  enable_vlan self new.

Definition disable_native (self : Session) (vlan_id : string) : M unit :=
  _ ← disable_vlan self vlan_id;
  _sendline self "sw trunk native vlan none".

(** ** The interface-status parser *)

(** The four patterns raced by the loop of [_int_config]. *)
Definition alternatives : list string :=
  [ Re.escape "More: <space>,  Quit: q or CTRL+Z, One line: <return> ";
    "Classification rules:\r\n";
    "[^ \t\r\n][^:]*:[^\n]*\n";
    " [^\n]*\n" ].

(** The [while True] loop of [_int_config] (lines 189-199), by recursion on
    the outcomes still to come. [k] is the key of the last Key:Value line,
    [result] the dict built so far; [w] and [aft] are the console's
    [written] and [after]. *)
Fixpoint int_config_loop (sc : list outcome) (w : list call) (aft : string)
    (k : string) (result : gmap string string)
  : Res (gmap string string) * Console :=
  match sc with
  | [] => (Raise TIMEOUT, mkConsole [] w aft)
  | TimedOut :: sc' => (Raise TIMEOUT, mkConsole sc' w aft)
  | Closed :: sc' => (Raise EOF, mkConsole sc' w aft)
  | Matched index text :: sc' =>
      match index with
      | 0 => int_config_loop sc' (w ++ [Send " "]) text k result
      | 1 => (Ok result, mkConsole sc' w text)
      | 2 =>
          match Py.unpack2 (Py.split1 ":" text) with
          | Ok (k', v) => int_config_loop sc' w text k' (<[k' := v]> result)
          | Raise e => (Raise e, mkConsole sc' w text)
          end
      | 3 =>
          match Py.getitem result k with
          | Ok old => int_config_loop sc' w text k (<[k := old +:+ text]> result)
          | Raise e => (Raise e, mkConsole sc' w text)
          end
      | _ => int_config_loop sc' w text k result
      end
  end.

(** [_Session._int_config] *)
Definition _int_config (self : Session) (interface : string)
  : M (gmap string string) :=
  _ ← _sendline self ("show int sw " +:+ interface);
  _ ← console.expect (take 1 (drop 2 alternatives));
  text ← console.get_after;
  kv ← lift (Py.unpack2 (Py.split1 ":" text));
  let '(k, v) := kv in
  result ← (λ c, int_config_loop (script c) (written c) (after c) k {[k := v]});
  _ ← console.expect [main_prompt self];
  mret result.

(** [_Session._port_configs], with the dict under construction as an
    accumulator. *)
Fixpoint port_configs_loop (self : Session) (ports : list Port)
    (result : gmap Port (gmap string string))
  : M (gmap Port (gmap string string)) :=
  match ports with
  | [] => mret result
  | port :: ports' =>
      config ← _int_config self (label port);
      port_configs_loop self ports' (<[port := config]> result)
  end.

Definition _port_configs (self : Session) (ports : list Port)
  : M (gmap Port (gmap string string)) :=
  port_configs_loop self ports ∅.

(** The loop of [get_port_networks] over the items of [port_configs]; the
    order in which a dict hands out its items is not specified, and
    [map_to_list] stands for it in [get_port_networks] below. *)
Fixpoint networks_loop (items : list (Port * gmap string string))
    (result : gmap Port (list (string * Z)))
  : Res (gmap Port (list (string * Z))) :=
  match items with
  | [] => Ok result
  | (k, v) :: items' =>
      networks ← port_networks v;
      networks_loop items' (<[k := networks]> result)
  end.

(** [_Session.get_port_networks] *)
Definition get_port_networks (self : Session) (ports : list Port)
  : M (gmap Port (list (string * Z))) :=
  port_configs ← _port_configs self ports;
  lift (networks_loop (map_to_list port_configs) ∅).

(** * Vocabulary of the statements *)

(** ** Texts *)

(** Every byte of [s] satisfies [p]. *)
Fixpoint all_bytes (p : ascii → bool) (s : string) : bool :=
  match s with
  | "" => true
  | String c s' => p c && all_bytes p s'
  end.

Definition starts_with_digit (s : string) : bool :=
  match s with
  | String c _ => Py.is_digit c
  | "" => false
  end.

(** A digit run written the way [str] writes an int: no superfluous
    leading zero. *)
Definition canonical (ds : string) : bool :=
  match ds with
  | String "0" (String _ _) => false
  | _ => true
  end.

(** A digit run without its superfluous leading zeros. *)
Fixpoint unpadded (ds : string) : string :=
  match ds with
  | String c (String _ _ as ds') =>
      if decide (c = "0"%char) then unpadded ds' else ds
  | _ => ds
  end.

Definition native_name : string := "vlan/native".

Definition range_field : string := "1,5-7, 20".

Definition endpoints : list (string * Z) :=
  [("vlan/1", 1%Z); ("vlan/5", 5%Z); ("vlan/7", 7%Z); ("vlan/20", 20%Z)].

(** ** Consoles and transcripts *)

(** The console after the driver has written [calls] to it. *)
Definition wrote (c : Console) (calls : list call) : Console :=
  mkConsole (script c) (written c ++ calls) (after c).

(** The pattern that matches [s] byte for byte. *)
Fixpoint lits (s : string) : list (Re.atom * Re.quant) :=
  match s with
  | "" => []
  | String c s' => (Re.Lit c, Re.One) :: lits s'
  end.

Definition login_console : Console :=
  mkConsole [Matched 0 "User Name:"; Matched 0 "Password:";
             Matched 0 (String "013" (String "010" "switch1# "))] [] "".

Definition no_colon (c : ascii) : bool := negb (bool_decide (c = ":"%char)).

(** A pagination banner or a continuation line. *)
Definition is_continuation (o : outcome) : bool :=
  match o with
  | Matched 0 _ | Matched 3 _ => true
  | _ => false
  end.

(** The texts of the continuation lines among [os], in order. *)
Fixpoint appended (os : list outcome) : string :=
  match os with
  | [] => ""
  | Matched 3 text :: os' => text +:+ appended os'
  | _ :: os' => appended os'
  end.

(** One space for each pagination banner among [os]. *)
Fixpoint paged (os : list outcome) : list call :=
  match os with
  | [] => []
  | Matched 0 _ :: os' => Send " " :: paged os'
  | _ :: os' => paged os'
  end.

(** An outcome that neither ends the loop, nor fails, nor stores under [k]. *)
Definition keeps_off (k : string) (o : outcome) : bool :=
  match o with
  | Matched 1 _ => false
  | Matched 2 text =>
      match Py.unpack2 (Py.split1 ":" text) with
      | Ok (k', _) => negb (bool_decide (k' = k))
      | Raise _ => false
      end
  | Matched _ _ => true
  | _ => false
  end.

Definition starts_with_key (os : list outcome) : bool :=
  match os with
  | [] | Matched 2 _ :: _ => true
  | _ => false
  end.

Definition banner : string :=
  "More: <space>,  Quit: q or CTRL+Z, One line: <return> ".

(** A transcript: a field with two continuation lines around a page break,
    another field with a continuation of its own, the end marker. *)
Definition wrapped_transcript : list outcome :=
  [ Matched 2 "Trunking VLANs Enabled: 1,";
    Matched 3 " 2,"; Matched 0 banner; Matched 3 " 3";
    Matched 2 "Name: uplink"; Matched 3 " to core";
    Matched 1 "Classification rules:" ].

(** Nothing more comes, or the wait runs into its bound. *)
Definition silent (sc : list outcome) : bool :=
  match sc with
  | [] | TimedOut :: _ => true
  | _ => false
  end.

(** An outcome after which the loop waits again. *)
Definition inconclusive (o : outcome) : bool :=
  match o with
  | Matched 1 _ => false
  | Matched 2 text =>
      match Py.unpack2 (Py.split1 ":" text) with
      | Ok _ => true
      | Raise _ => false
      end
  | Matched _ _ => true
  | _ => false
  end.

(** Outcomes after which the query, once in its loop, is at a wait: of the
    loop, or the one for the main prompt right after the end marker. *)
Fixpoint waiting_loop (os : list outcome) : bool :=
  match os with
  | [] => true
  | [Matched 1 _] => true
  | o :: os' => inconclusive o && waiting_loop os'
  end.

(** The same from the start of the query. *)
Definition waiting (os : list outcome) : bool :=
  match os with
  | [] => true
  | Matched _ text :: os' =>
      match Py.unpack2 (Py.split1 ":" text) with
      | Ok _ => waiting_loop os'
      | Raise _ => false
      end
  | _ => false
  end.

Definition uplink : Port := mkPort 1 "gi1/0/1".

Definition a_session : Session :=
  mkSession (Re.escape "switch1(config)#") (Re.escape "switch1(config-if)#")
            (Re.escape "switch1#") (mkSwitch "10.0.0.1" "admin" "secret").

(** The switch prints a single field, then the end marker and its prompt. *)
Definition bare_console : Console :=
  mkConsole [Matched 0 "Port: gi1/0/1"; Matched 1 "Classification rules:";
             Matched 0 "switch1#"] [] "".

(** The console of a switch that prints the two VLAN fields with the given
    values, the end marker and its prompt. *)
Definition status_console (native trunk : string) : Console :=
  mkConsole [Matched 0 ("Trunking Native Mode VLAN:" +:+ native);
             Matched 2 ("Trunking VLANs Enabled:" +:+ trunk);
             Matched 1 "Classification rules:";
             Matched 0 "switch1#"] [] "".

(** The console once the status of [uplink] has been read. *)
Definition status_read : Console :=
  mkConsole [] [Sendline "show int sw gi1/0/1"] "switch1#".

Definition five : list (string * Z) :=
  [("vlan/1", 1%Z); ("vlan/5", 5%Z); ("vlan/6", 6%Z); ("vlan/7", 7%Z);
   ("vlan/20", 20%Z)].

(** ** Further vocabulary *)

(** The number of waits that end in a match before the first that does
    not. *)
Fixpoint leading_matches (sc : list outcome) : nat :=
  match sc with
  | Matched _ _ :: sc' => S (leading_matches sc')
  | _ => 0
  end.

(** What a wait raises when it does not end in a match. *)
Definition failure (sc : list outcome) : exn :=
  match sc with
  | Closed :: _ => EOF
  | _ => TIMEOUT
  end.

(** A command that only writes the given lines: it returns, waits for
    nothing and leaves the rest of the console as it was. *)
Definition writes_only (m : M unit) (lines : list string) : Prop :=
  ∀ c, m c = (Ok (), wrote c (Sendline <$> lines)).

(** The next wait ends in a match. *)
Definition is_matched (sc : list outcome) : bool :=
  match sc with
  | Matched _ _ :: _ => true
  | _ => false
  end.

(** Outcomes that take the loop to the end marker and then to the main
    prompt. *)
Fixpoint completes_loop (sc : list outcome) : bool :=
  match sc with
  | [] => false
  | Matched 1 _ :: sc' => is_matched sc'
  | o :: sc' => inconclusive o && completes_loop sc'
  end.

(** The same from the start of the query. *)
Definition completes (sc : list outcome) : bool :=
  match sc with
  | Matched _ text :: sc' =>
      match Py.unpack2 (Py.split1 ":" text) with
      | Ok _ => completes_loop sc'
      | Raise _ => false
      end
  | _ => false
  end.

(** The rest of [_int_config] once the first line is stored: the loop, then
    the wait for the main prompt. *)
Definition query_rest (self : Session) (sc : list outcome) (w : list call)
    (aft k : string) (r : gmap string string)
  : Res (gmap string string) * Console :=
  match int_config_loop sc w aft k r with
  | (Ok result, c2) =>
      match console.expect [main_prompt self] c2 with
      | (Ok _, c3) => (Ok result, c3)
      | (Raise e, c3) => (Raise e, c3)
      end
  | (Raise e, c2) => (Raise e, c2)
  end.

(** The call returned. *)
Definition is_Ok {A : Type} (r : Res A) : bool :=
  match r with
  | Ok _ => true
  | Raise _ => false
  end.

(** Every key of [r] is free of colons and is the text before the first
    colon of some line matched in [sc]; its value starts with the rest of
    that line. *)
Definition from_lines (sc : list outcome) (r : gmap string string) : Prop :=
  ∀ key v, r !! key = Some v →
    all_bytes no_colon key = true
    ∧ ∃ i v0 more, Matched i (key +:+ String ":" v0) ∈ sc ∧ v = v0 +:+ more.

(** The lines among the writes, without the single bytes sent to page. *)
Fixpoint commands (w : list call) : list string :=
  match w with
  | [] => []
  | Sendline line :: w' => line :: commands w'
  | Send _ :: w' => commands w'
  end.

(** The command that asks for the status of a port. *)
Definition show_command (port : Port) : string :=
  "show int sw " +:+ label port.

(** [sep.join(xs)] *)
Fixpoint join (sep : string) (xs : list string) : string :=
  match xs with
  | [] => ""
  | [x] => x
  | x :: xs' => x +:+ sep +:+ join sep xs'
  end.

(** A byte that is neither of the two separators of the trunk field. *)
Definition plain (c : ascii) : bool :=
  negb (bool_decide (c = ","%char)) && negb (bool_decide (c = "-"%char)).

(** A sub-token as the switch may print it: blanks, the digits of an id, and
    an annotation that does not go on with a digit. *)
Definition token_text (t : string * string * string) : string :=
  let '(ws, ds, rest) := t in ws +:+ ds +:+ rest.

Definition token_ok (t : string * string * string) : bool :=
  let '(ws, ds, rest) := t in
  all_bytes Py.is_space ws
  && negb (bool_decide (ds = ""))
  && all_bytes Py.is_digit ds
  && negb (starts_with_digit rest)
  && all_bytes plain rest.

(** The entry a sub-token stands for. *)
Definition token_entry (t : string * string * string) : string * Z :=
  let '(ws, ds, rest) := t in ("vlan/" +:+ ds, Py.int ds).

(** The text of a range token: sub-tokens joined by "-". *)
Definition range_text (ts : list (string * string * string)) : string :=
  join "-" (token_text <$> ts).

(** A closed equation between results is settled by running both sides
    and comparing them. *)
Ltac by_running := apply (bool_decide_unpack _); vm_compute; exact I.

Ltac str_simpl :=
  repeat match goal with
    | |- context [String ?c ?s +:+ ?t] =>
        change (String c s +:+ t) with (String c (s +:+ t))
    | |- context [EmptyString +:+ ?t] => change (EmptyString +:+ t) with t
    end.

(** * Properties *)

(** ** Strings *)

Lemma append_cons (c : ascii) (s t : string) :
  String c s +:+ t = String c (s +:+ t).
Proof. reflexivity. Qed.

Lemma append_nil_l (t : string) : "" +:+ t = t.
Proof. reflexivity. Qed.

Lemma append_nil_r (s : string) : s +:+ "" = s.
Proof. induction s as [|c s IH]; str_simpl; [done | by f_equal]. Qed.

Lemma append_assoc (a b c : string) : (a +:+ b) +:+ c = a +:+ b +:+ c.
Proof. induction a as [|x a IH]; str_simpl; [done | by f_equal]. Qed.

Lemma digit_not_space (c : ascii) : Py.is_digit c = true → Py.is_space c = false.
Proof. destruct c as [[] [] [] [] [] [] [] []]; simpl; done. Qed.

Lemma lstrip_blank_prefix (p : ascii → bool) (ws s : string) :
  all_bytes p ws = true → Py.lstrip p (ws +:+ s) = Py.lstrip p s.
Proof.
  induction ws as [|c ws IH]; str_simpl; simpl; [done |].
  intros [Hc Hws]%andb_prop. rewrite Hc. by apply IH.
Qed.

Lemma lstrip_kept (p : ascii → bool) (c : ascii) (s : string) :
  p c = false → Py.lstrip p (String c s) = String c s.
Proof. intros Hc. simpl. by rewrite Hc. Qed.

Lemma rstrip_kept (p : ascii → bool) (c : ascii) (s : string) :
  p c = false → Py.rstrip p (String c s) = String c (Py.rstrip p s).
Proof. intros Hc. simpl. rewrite Hc. by destruct (Py.rstrip p s). Qed.

Lemma rstrip_digits (ds r : string) :
  all_bytes Py.is_digit ds = true →
  Py.rstrip Py.is_space (ds +:+ r) = ds +:+ Py.rstrip Py.is_space r.
Proof.
  induction ds as [|c ds IH]; [done |].
  intros [Hc Hds]%andb_prop. str_simpl.
  rewrite rstrip_kept by by apply digit_not_space.
  by rewrite IH.
Qed.

Lemma rstrip_head (p : ascii → bool) (s : string) :
  starts_with_digit s = false → starts_with_digit (Py.rstrip p s) = false.
Proof.
  destruct s as [|c s]; [done |]. simpl.
  destruct (Py.rstrip p s); [destruct (p c) |]; done.
Qed.

Lemma digit_run_exact (ds r : string) :
  all_bytes Py.is_digit ds = true → starts_with_digit r = false →
  Py.digit_run (ds +:+ r) = ds.
Proof.
  intros Hds Hr. induction ds as [|c ds IH]; str_simpl; simpl.
  - destruct r as [|c r]; [done |]. simpl in *. by rewrite Hr.
  - apply andb_prop in Hds as [Hc Hds]. rewrite Hc. by rewrite IH.
Qed.

Lemma digit_run_digits (s : string) : all_bytes Py.is_digit (Py.digit_run s) = true.
Proof.
  induction s as [|c s IH]; simpl; [done |].
  destruct (Py.is_digit c) eqn:Hc; simpl; [by rewrite Hc | done].
Qed.

Lemma digit_run_head (s : string) :
  starts_with_digit s = false → Py.digit_run s = "".
Proof. destruct s as [|c s]; simpl; [done |]. by intros ->. Qed.

Lemma match_num_Some (s ds : string) :
  Py.match_num s = Some ds → ds ≠ "" ∧ all_bytes Py.is_digit ds = true.
Proof.
  unfold Py.match_num. pose proof (digit_run_digits s) as H.
  destruct (Py.digit_run s) as [|c r]; [done |].
  intros [= <-]. done.
Qed.

(** What [strip] and the numeric-prefix match make of blanks, digits and a
    rest that does not go on with a digit. *)
Lemma match_num_strip (ws ds rest : string) :
  all_bytes Py.is_space ws = true → ds ≠ "" →
  all_bytes Py.is_digit ds = true → starts_with_digit rest = false →
  Py.match_num (Py.strip (ws +:+ ds +:+ rest)) = Some ds.
Proof.
  intros Hws Hne Hds Hrest. unfold Py.strip.
  rewrite lstrip_blank_prefix by done.
  destruct ds as [|d ds]; [done |].
  pose proof Hds as [Hd _]%andb_prop.
  rewrite (append_cons d), lstrip_kept by by apply digit_not_space.
  rewrite <- append_cons, rstrip_digits by done.
  unfold Py.match_num.
  rewrite digit_run_exact by (try apply rstrip_head; done).
  done.
Qed.

Lemma match_num_None (s : string) :
  starts_with_digit s = false → Py.match_num s = None.
Proof. intros H. unfold Py.match_num. by rewrite digit_run_head. Qed.

(** ** Integers *)

Lemma digit_val_range (c : ascii) :
  Py.is_digit c = true → (0 ≤ Py.digit_val c ≤ 9)%Z.
Proof.
  unfold Py.is_digit, Py.digit_val. intros [H1 H2]%andb_prop.
  apply N.leb_le in H1, H2. lia.
Qed.

Lemma int_acc_nonneg (ds : string) (acc : Z) :
  all_bytes Py.is_digit ds = true → (0 ≤ acc)%Z → (0 ≤ Py.int_acc acc ds)%Z.
Proof.
  revert acc. induction ds as [|c ds IH]; simpl; intros acc Hds Hacc; [done |].
  apply andb_prop in Hds as [Hc Hds]. apply IH; [done |].
  pose proof (digit_val_range c Hc). lia.
Qed.

Lemma int_nonneg (ds : string) :
  all_bytes Py.is_digit ds = true → (0 ≤ Py.int ds)%Z.
Proof. intros H. by apply int_acc_nonneg. Qed.

Lemma int_acc_mono (ds : string) (acc : Z) :
  all_bytes Py.is_digit ds = true → (0 ≤ acc)%Z → (acc ≤ Py.int_acc acc ds)%Z.
Proof.
  revert acc. induction ds as [|c ds IH]; simpl; intros acc Hds Hacc; [done |].
  apply andb_prop in Hds as [Hc Hds].
  pose proof (digit_val_range c Hc).
  etrans; [| apply IH; [done | lia]]. lia.
Qed.

Lemma pretty_digit (c : ascii) :
  Py.is_digit c = true → pretty_N_char (Z.to_N (Py.digit_val c)) = c.
Proof. destruct c as [[] [] [] [] [] [] [] []]; simpl; done. Qed.

Lemma pretty_Z_to_N (z : Z) : (0 ≤ z)%Z → pretty z = pretty (Z.to_N z).
Proof. destruct z; [done | done | lia]. Qed.

(** Rendering the value of a digit run gives the run back, one digit at a
    time, as long as something non-zero stands in front of it. *)
Lemma pretty_int_acc (ds s : string) (acc : Z) :
  all_bytes Py.is_digit ds = true → (0 < acc)%Z →
  pretty_N_go (Z.to_N (Py.int_acc acc ds)) s = pretty_N_go (Z.to_N acc) (ds +:+ s).
Proof.
  revert acc s. induction ds as [|c ds IH]; intros acc s Hds Hacc; [done |].
  apply andb_prop in Hds as [Hc Hds]. simpl.
  pose proof (digit_val_range c Hc) as Hd.
  rewrite IH by (done || lia).
  rewrite pretty_N_go_step by lia.
  replace (Z.to_N (acc * 10 + Py.digit_val c) `div` 10)%N with (Z.to_N acc)
    by (apply N.div_unique with (Z.to_N (Py.digit_val c)); lia).
  replace (Z.to_N (acc * 10 + Py.digit_val c) `mod` 10)%N
    with (Z.to_N (Py.digit_val c))
    by (apply N.mod_unique with (Z.to_N acc); lia).
  by rewrite pretty_digit.
Qed.

Lemma pretty_int (ds : string) :
  ds ≠ "" → all_bytes Py.is_digit ds = true → canonical ds = true →
  pretty (Py.int ds) = ds.
Proof.
  intros Hne Hds Hcan. destruct ds as [|d ds]; [done |].
  pose proof Hds as [Hd Hds']%andb_prop.
  pose proof (digit_val_range d Hd) as Hr.
  destruct (decide (d = "0"%char)) as [-> | Hnz].
  { destruct ds; [done | discriminate Hcan]. }
  assert (0 < Py.digit_val d)%Z as Hpos.
  { destruct (decide (Py.digit_val d = 0%Z)) as [Hz | ?]; [| lia].
    exfalso. apply Hnz. rewrite <- (pretty_digit d Hd), Hz. done. }
  change (Py.int (String d ds)) with (Py.int_acc (0 * 10 + Py.digit_val d) ds).
  rewrite Z.mul_0_l, Z.add_0_l.
  pose proof (int_acc_mono ds (Py.digit_val d) Hds' ltac:(lia)) as Hmono.
  rewrite pretty_Z_to_N by lia.
  unfold pretty at 1, pretty_N. rewrite decide_False by lia.
  rewrite pretty_int_acc by done.
  rewrite pretty_N_go_step by lia.
  replace (Z.to_N (Py.digit_val d) `div` 10)%N with 0%N
    by (symmetry; apply N.div_small; lia).
  rewrite N.mod_small by lia.
  by rewrite pretty_N_go_0, pretty_digit, append_nil_r.
Qed.

Lemma unpadded_canonical (ds : string) : canonical (unpadded ds) = true.
Proof.
  induction ds as [|c ds IH]; [done |].
  destruct ds as [|d r]; [by destruct c as [[] [] [] [] [] [] [] []] |].
  change (canonical (if decide (c = "0"%char)
                     then unpadded (String d r) else String c (String d r))
          = true).
  destruct (decide (c = "0"%char)) as [-> | Hc]; [done |].
  destruct c as [[] [] [] [] [] [] [] []]; done.
Qed.

Lemma unpadded_fixed (ds : string) : canonical ds = true → unpadded ds = ds.
Proof.
  destruct ds as [|c [|d r]]; try done. intros Hcan.
  change (unpadded (String c (String d r)))
    with (if decide (c = "0"%char)
          then unpadded (String d r) else String c (String d r)).
  destruct (decide (c = "0"%char)) as [-> | Hc]; done.
Qed.

Lemma unpadded_same_int (ds : string) : Py.int (unpadded ds) = Py.int ds.
Proof.
  induction ds as [|c ds IH]; [done |].
  destruct ds as [|d r]; [done |].
  change (unpadded (String c (String d r)))
    with (if decide (c = "0"%char)
          then unpadded (String d r) else String c (String d r)).
  destruct (decide (c = "0"%char)) as [-> | Hc]; [| done].
  by rewrite IH.
Qed.

Lemma unpadded_digits (ds : string) :
  ds ≠ "" → all_bytes Py.is_digit ds = true →
  unpadded ds ≠ "" ∧ all_bytes Py.is_digit (unpadded ds) = true.
Proof.
  induction ds as [|c ds IH]; [done |]. intros _ Hds.
  destruct ds as [|d r]; [done |].
  change (unpadded (String c (String d r)))
    with (if decide (c = "0"%char)
          then unpadded (String d r) else String c (String d r)).
  destruct (decide (c = "0"%char)) as [-> | Hc]; [| done].
  apply IH; [done |]. by apply andb_prop in Hds as [_ ?].
Qed.

(** [str(int(ds))] is [ds] without its padding. *)
Lemma pretty_int_unpadded (ds : string) :
  ds ≠ "" → all_bytes Py.is_digit ds = true →
  pretty (Py.int ds) = unpadded ds.
Proof.
  intros Hne Hds. destruct (unpadded_digits ds Hne Hds) as [Hne' Hds'].
  rewrite <- unpadded_same_int.
  apply pretty_int; [done | done | apply unpadded_canonical].
Qed.

(** ** The entries of a port *)

Lemma token_networks_entry (num_str : string) (e : string * Z) :
  e ∈ token_networks num_str →
  ∃ ds, ds ≠ "" ∧ all_bytes Py.is_digit ds = true
        ∧ e = ("vlan/" +:+ ds, Py.int ds).
Proof.
  unfold token_networks.
  destruct (Py.match_num (Py.strip num_str)) as [ds|] eqn:Hm.
  - intros ->%list_elem_of_singleton.
    apply match_num_Some in Hm as [? ?]. by exists ds.
  - by intros ?%not_elem_of_nil.
Qed.

Lemma trunked_networks_entry (field : string) (e : string * Z) :
  e ∈ trunked_networks field →
  ∃ ds, ds ≠ "" ∧ all_bytes Py.is_digit ds = true
        ∧ e = ("vlan/" +:+ ds, Py.int ds).
Proof.
  unfold trunked_networks. rewrite list_elem_of_In, in_flat_map.
  intros (range_str & _ & (num_str & _ & He)%in_flat_map).
  apply token_networks_entry with num_str. by apply list_elem_of_In.
Qed.

Lemma vlan_name_not_native (ds : string) :
  ds ≠ "" → all_bytes Py.is_digit ds = true → "vlan/" +:+ ds ≠ native_name.
Proof.
  intros Hne Hds. destruct ds as [|d ds]; [done |].
  apply andb_prop in Hds as [Hd _].
  intros [= -> _]. discriminate Hd.
Qed.

Lemma trunked_networks_not_native (field : string) :
  Forall (λ e, e.1 ≠ native_name) (trunked_networks field).
Proof.
  apply Forall_forall. intros e (ds & Hne & Hds & ->)%trunked_networks_entry.
  by apply vlan_name_not_native.
Qed.

Lemma filter_native_trunked (field : string) :
  filter (λ e : string * Z, e.1 = native_name) (trunked_networks field) = [].
Proof.
  pose proof (trunked_networks_not_native field) as Hnot.
  induction Hnot as [|e l He _ IH]; [done |].
  by rewrite filter_cons_False.
Qed.

(** The two subscripts of [port_networks], spelled out. *)
Lemma port_networks_fields (v : gmap string string) (raw range_str : string) :
  v !! native_field = Some raw → v !! trunk_field = Some range_str →
  port_networks v =
    Ok (match native_vlan raw with
        | Some n => trunked_networks range_str ++ [(native_name, n)]
        | None => trunked_networks range_str
        end).
Proof. intros Hn Ht. unfold port_networks, Py.getitem. by rewrite Hn, Ht. Qed.

Lemma port_networks_Ok (v : gmap string string) (nets : list (string * Z)) :
  port_networks v = Ok nets →
  ∃ raw range_str,
    v !! native_field = Some raw ∧ v !! trunk_field = Some range_str.
Proof.
  unfold port_networks, Py.getitem.
  destruct (v !! native_field) as [raw|]; [| done].
  destruct (v !! trunk_field) as [range_str|]; [| done].
  intros _. by exists raw, range_str.
Qed.

Lemma port_networks_missing (v : gmap string string) :
  v !! native_field = None ∨ v !! trunk_field = None →
  ∃ key, port_networks v = Raise (KeyError key)
         ∧ (key = native_field ∨ key = trunk_field).
Proof.
  unfold port_networks, Py.getitem.
  destruct (v !! native_field) as [raw|] eqn:Hn.
  - intros [? | ->]; [done |]. exists trunk_field. auto.
  - intros _. exists native_field. auto.
Qed.

(** ** The call as a whole *)

Lemma port_networks_Raise (v : gmap string string) (e : exn) :
  port_networks v = Raise e →
  ∃ key, e = KeyError key ∧ (key = native_field ∨ key = trunk_field).
Proof.
  unfold port_networks, Py.getitem.
  destruct (v !! native_field); [destruct (v !! trunk_field) |];
    simpl; intros [= <-]; eauto.
Qed.

Lemma networks_loop_missing (items : list (Port * gmap string string))
    (result : gmap Port (list (string * Z))) (p : Port)
    (v : gmap string string) :
  (p, v) ∈ items →
  v !! native_field = None ∨ v !! trunk_field = None →
  ∃ key, networks_loop items result = Raise (KeyError key)
         ∧ (key = native_field ∨ key = trunk_field).
Proof.
  intros Hin Hmiss. revert result.
  induction items as [|[k w] items IH]; intros result.
  { by apply not_elem_of_nil in Hin. }
  simpl. destruct (port_networks w) as [nets | e] eqn:Hw; simpl.
  - apply elem_of_cons in Hin as [[= <- <-] | Hin]; [| by apply IH].
    destruct (port_networks_missing v Hmiss) as (key & Hkey & _). congruence.
  - apply port_networks_Raise in Hw as (key & -> & Hkey). eauto.
Qed.

Lemma get_port_networks_unfold (self : Session) (ports : list Port)
    (c : Console) :
  get_port_networks self ports c =
    match _port_configs self ports c with
    | (Ok port_configs, c') => (networks_loop (map_to_list port_configs) ∅, c')
    | (Raise e, c') => (Raise e, c')
    end.
Proof.
  unfold get_port_networks, mbind, M_bind.
  by destruct (_port_configs self ports c) as [[? | ?] ?].
Qed.

Lemma networks_loop_Ok (items : list (Port * gmap string string))
    (acc result : gmap Port (list (string * Z))) :
  NoDup items.*1 →
  networks_loop items acc = Ok result →
  (∀ p v, (p, v) ∈ items →
          ∃ nets, port_networks v = Ok nets ∧ result !! p = Some nets)
  ∧ (∀ p, p ∉ items.*1 → result !! p = acc !! p).
Proof.
  revert acc. induction items as [|[k w] items IH]; intros acc Hnd Hloop.
  { injection Hloop as <-. split; [| done]. by intros p v ?%not_elem_of_nil. }
  apply NoDup_cons in Hnd as [Hk Hnd]. simpl in Hloop.
  destruct (port_networks w) as [nets | e] eqn:Hw; [| done]. simpl in Hloop.
  destruct (IH _ Hnd Hloop) as [Hin Hout]. split.
  - intros p v [[= -> ->] | Hpv]%elem_of_cons; [| by apply Hin].
    exists nets. split; [done |]. by rewrite Hout, lookup_insert_eq.
  - intros p [Hp1 Hp2]%not_elem_of_cons. simpl in Hp1.
    by rewrite Hout, lookup_insert_ne.
Qed.

Lemma get_port_networks_Ok (self : Session) (ports : list Port)
    (c c' : Console) (result : gmap Port (list (string * Z))) :
  get_port_networks self ports c = (Ok result, c') →
  ∃ port_configs,
    _port_configs self ports c = (Ok port_configs, c')
    ∧ (∀ p v, port_configs !! p = Some v →
              ∃ nets, port_networks v = Ok nets ∧ result !! p = Some nets)
    ∧ (∀ p nets, result !! p = Some nets →
                 ∃ v, port_configs !! p = Some v ∧ port_networks v = Ok nets).
Proof.
  rewrite get_port_networks_unfold.
  destruct (_port_configs self ports c) as [[port_configs | e] c1]; [| done].
  intros [= Hloop <-]. exists port_configs. split; [done |].
  destruct (networks_loop_Ok _ _ _ (NoDup_fst_map_to_list port_configs) Hloop)
    as [Hin Hout].
  split.
  - intros p v Hp. by apply Hin, elem_of_map_to_list.
  - intros p nets Hp.
    destruct (port_configs !! p) as [v|] eqn:Hv.
    + destruct (Hin p v) as (nets' & Hnets & Hres);
        [by apply elem_of_map_to_list |].
      exists v. split; [done |]. congruence.
    + rewrite Hout in Hp; [done |].
      intros ((q & v) & -> & Hq%elem_of_map_to_list)%list_elem_of_fmap.
      simpl in Hv. congruence.
Qed.

(** C9: both fields are subscripted without a check. Once the parser has
    returned the map of every port, a single port whose map lacks
    "Trunking Native Mode VLAN" or "Trunking VLANs Enabled" makes the whole
    call raise [KeyError] on one of these two keys; no port gets a list. The
    parser itself stores whatever keys the switch printed. *)
Theorem missing_field_raises (self : Session) (ports : list Port)
    (c c' : Console) (port_configs : gmap Port (gmap string string))
    (p : Port) (v : gmap string string) :
  _port_configs self ports c = (Ok port_configs, c') →
  port_configs !! p = Some v →
  v !! native_field = None ∨ v !! trunk_field = None →
  port_networks v ≠ Ok []
  ∧ ∃ key, get_port_networks self ports c = (Raise (KeyError key), c')
           ∧ (key = native_field ∨ key = trunk_field).
Proof.
  intros Hcfg Hp Hmiss. split.
  { destruct (port_networks_missing v Hmiss) as (key & -> & _). done. }
  rewrite get_port_networks_unfold, Hcfg.
  destruct (networks_loop_missing (map_to_list port_configs) ∅ p v)
    as (key & -> & Hkey); [by apply elem_of_map_to_list | done |].
  by exists key.
Qed.

(** ** Trunked VLANs *)

(** C1, as stated, does not hold: for a port whose "Trunking VLANs Enabled"
    field is "1,5-7, 20", [get_port_networks] returns four entries, the
    endpoints 5 and 7 of the range token among them and no entry for VLAN 6;
    this is not the list of five entries of the claim. *)
Lemma range_not_expanded :
  get_port_networks a_session [uplink] (status_console "Disabled" range_field)
  = (Ok {[ uplink := endpoints ]}, status_read)
  ∧ endpoints ≠ five
  ∧ trunked_networks range_field ≠ five.
Proof. split; [by_running | split; vm_compute; discriminate]. Qed.

(** C1, amended: for a port whose "Trunking VLANs Enabled" field is
    "1,5-7, 20", the list returned for the port is vlan/1, vlan/5, vlan/7,
    vlan/20 in that order (the endpoints of the range token, nothing in
    between), followed only by the native entry if there is one. The value
    is cut at commas into "1", "5-7", " 20", each of these at "-", and each
    piece is trimmed and read by its leading digits. *)
Theorem range_endpoints (self : Session) (ports : list Port) (c c' : Console)
    (port_configs : gmap Port (gmap string string))
    (result : gmap Port (list (string * Z))) (p : Port)
    (v : gmap string string) :
  _port_configs self ports c = (Ok port_configs, c') →
  get_port_networks self ports c = (Ok result, c') →
  port_configs !! p = Some v →
  v !! trunk_field = Some range_field →
  (∃ raw,
     v !! native_field = Some raw
     ∧ result !! p
       = Some (match native_vlan raw with
               | Some n => endpoints ++ [("vlan/native", n)]
               | None => endpoints
               end))
  ∧ Py.split "," range_field = ["1"; "5-7"; " 20"]
  ∧ Py.split "-" <$> Py.split "," range_field = [["1"]; ["5"; "7"]; [" 20"]]
  ∧ token_networks <$> ["1"; "5"; "7"; " 20"]
    = [[("vlan/1", 1%Z)]; [("vlan/5", 5%Z)]; [("vlan/7", 7%Z)];
       [("vlan/20", 20%Z)]].
Proof.
  intros Hcfg Hget Hp Ht. split; [| by vm_compute].
  destruct (get_port_networks_Ok self ports c c' result Hget)
    as (port_configs' & Hcfg' & Hin & _).
  rewrite Hcfg in Hcfg'. injection Hcfg' as <-.
  destruct (Hin p v Hp) as (nets & Hnets & ->).
  destruct (port_networks_Ok v nets Hnets) as (raw & range_str & Hn & Ht').
  rewrite (port_networks_fields v raw range_field Hn Ht) in Hnets.
  injection Hnets as <-. by exists raw.
Qed.

Lemma range_endpoints_witness :
  ∃ raw,
    ({[ native_field := "Disabled"; trunk_field := range_field ]}
       : gmap string string) !! native_field = Some raw
    ∧ ({[ uplink := endpoints ]} : gmap Port (list (string * Z))) !! uplink
      = Some (match native_vlan raw with
              | Some n => endpoints ++ [("vlan/native", n)]
              | None => endpoints
              end).
Proof.
  apply (range_endpoints a_session [uplink]
           (status_console "Disabled" range_field) status_read
           {[ uplink := {[ native_field := "Disabled";
                           trunk_field := range_field ]} ]}
           {[ uplink := endpoints ]} uplink
           {[ native_field := "Disabled"; trunk_field := range_field ]});
    by_running.
Defined.

(** ** The native VLAN *)

(** C3: the native VLAN of a port is read off the "Trunking Native Mode VLAN"
    field of its parsed map by trimming and taking the leading digits.
    Whatever blanks stand before the digits and whatever text not starting
    with a digit stands after them, the id is the value of the digits and
    the native entry is emitted; a trimmed value that does not start with a
    digit gives no native entry. " 100 (Inactive)" gives 100 and "Disabled"
    gives none. *)
Theorem native_from_leading_digits (self : Session) (ports : list Port)
    (c c' : Console) (port_configs : gmap Port (gmap string string))
    (result : gmap Port (list (string * Z))) (p : Port)
    (v : gmap string string) (raw : string) :
  _port_configs self ports c = (Ok port_configs, c') →
  get_port_networks self ports c = (Ok result, c') →
  port_configs !! p = Some v →
  v !! native_field = Some raw →
  (∃ range_str nets,
     v !! trunk_field = Some range_str
     ∧ result !! p = Some nets
     ∧ (∀ ws ds rest,
          raw = ws +:+ ds +:+ rest →
          all_bytes Py.is_space ws = true →
          ds ≠ "" → all_bytes Py.is_digit ds = true →
          starts_with_digit rest = false →
          native_vlan raw = Some (Py.int ds)
          ∧ nets = trunked_networks range_str ++ [("vlan/native", Py.int ds)])
     ∧ (starts_with_digit (Py.strip raw) = false →
        native_vlan raw = None ∧ nets = trunked_networks range_str))
  ∧ native_vlan " 100 (Inactive)" = Some 100%Z
  ∧ native_vlan "Disabled" = None.
Proof.
  intros Hcfg Hget Hp Hn. split; [| by vm_compute].
  destruct (get_port_networks_Ok self ports c c' result Hget)
    as (port_configs' & Hcfg' & Hin & _).
  rewrite Hcfg in Hcfg'. injection Hcfg' as <-.
  destruct (Hin p v Hp) as (nets & Hnets & Hres).
  destruct (port_networks_Ok v nets Hnets) as (raw' & range_str & Hn' & Ht).
  rewrite (port_networks_fields v raw range_str Hn Ht) in Hnets.
  exists range_str, nets. repeat split; try done.
  - unfold native_vlan. subst raw. by rewrite match_num_strip.
  - subst raw. unfold native_vlan in Hnets |- *.
    rewrite match_num_strip in Hnets by done. by injection Hnets as <-.
  - unfold native_vlan. by rewrite match_num_None.
  - unfold native_vlan in Hnets. rewrite match_num_None in Hnets by done.
    by injection Hnets as <-.
Qed.

Lemma native_from_leading_digits_witness :
  ∃ range_str nets,
    ({[ native_field := " 100 (Inactive)"; trunk_field := "1" ]}
       : gmap string string) !! trunk_field = Some range_str
    ∧ ({[ uplink := [("vlan/1", 1%Z); ("vlan/native", 100%Z)] ]}
         : gmap Port (list (string * Z))) !! uplink = Some nets
    ∧ (∀ ws ds rest,
         " 100 (Inactive)" = ws +:+ ds +:+ rest →
         all_bytes Py.is_space ws = true →
         ds ≠ "" → all_bytes Py.is_digit ds = true →
         starts_with_digit rest = false →
         native_vlan " 100 (Inactive)" = Some (Py.int ds)
         ∧ nets = trunked_networks range_str ++ [("vlan/native", Py.int ds)])
    ∧ (starts_with_digit (Py.strip " 100 (Inactive)") = false →
       native_vlan " 100 (Inactive)" = None
       ∧ nets = trunked_networks range_str).
Proof.
  apply (native_from_leading_digits a_session [uplink]
           (status_console " 100 (Inactive)" "1") status_read
           {[ uplink := {[ native_field := " 100 (Inactive)";
                           trunk_field := "1" ]} ]}
           {[ uplink := [("vlan/1", 1%Z); ("vlan/native", 100%Z)] ]} uplink
           {[ native_field := " 100 (Inactive)"; trunk_field := "1" ]}
           " 100 (Inactive)");
    by_running.
Defined.

(** ** The place of the native entry *)

(** C4: a list returned for a port has at most one entry named vlan/native;
    it is the trunked entries of the port's parsed map in the order parsed,
    none of which bears that name, followed by the native entry when the
    native field gave an id. The id is not looked up among the trunked
    entries: a port with native 5 and trunk 5 lists VLAN 5 twice. *)
Theorem native_entry_last (self : Session) (ports : list Port)
    (c c' : Console) (result : gmap Port (list (string * Z))) (p : Port)
    (nets : list (string * Z)) :
  get_port_networks self ports c = (Ok result, c') →
  result !! p = Some nets →
  length (filter (λ e, e.1 = "vlan/native") nets) ≤ 1
  ∧ (∃ port_configs v raw range_str,
       _port_configs self ports c = (Ok port_configs, c')
       ∧ port_configs !! p = Some v
       ∧ v !! native_field = Some raw ∧ v !! trunk_field = Some range_str
       ∧ Forall (λ e, e.1 ≠ "vlan/native") (trunked_networks range_str)
       ∧ match native_vlan raw with
         | Some n => nets = trunked_networks range_str ++ [("vlan/native", n)]
         | None => nets = trunked_networks range_str
         end)
  ∧ get_port_networks a_session [uplink] (status_console "5" "5")
    = (Ok {[ uplink := [("vlan/5", 5%Z); ("vlan/native", 5%Z)] ]}, status_read).
Proof.
  intros Hget Hres.
  destruct (get_port_networks_Ok self ports c c' result Hget)
    as (port_configs & Hcfg & _ & Hout).
  destruct (Hout p nets Hres) as (v & Hp & Hok).
  destruct (port_networks_Ok v nets Hok) as (raw & range_str & Hn & Ht).
  rewrite (port_networks_fields v raw range_str Hn Ht) in Hok.
  pose proof (trunked_networks_not_native range_str) as Hnot.
  pose proof (filter_native_trunked range_str) as Hnil.
  unfold native_name in *.
  split; [| split; [| by_running]].
  - destruct (native_vlan raw) as [n|]; injection Hok as <-.
    + rewrite filter_app, Hnil. simpl. done.
    + rewrite Hnil. simpl. lia.
  - exists port_configs, v, raw, range_str. repeat split; try done.
    destruct (native_vlan raw); by injection Hok as <-.
Qed.

Lemma native_entry_last_witness :
  length (filter (λ e : string * Z, e.1 = "vlan/native")
            [("vlan/1", 1%Z); ("vlan/native", 100%Z)]) ≤ 1.
Proof.
  apply (native_entry_last a_session [uplink]
           (status_console " 100 (Inactive)" "1") status_read
           {[ uplink := [("vlan/1", 1%Z); ("vlan/native", 100%Z)] ]} uplink
           [("vlan/1", 1%Z); ("vlan/native", 100%Z)]);
    by_running.
Defined.

(** ** Names and ids of trunked entries *)

(** C10, as stated, does not hold: the name keeps the digits as the switch
    wrote them, so a trunk field "007" gives the entry ("vlan/007", 7), whose
    name is not "vlan/" followed by the decimal rendering of 7. *)
Lemma padded_name_differs :
  get_port_networks a_session [uplink] (status_console "Disabled" "007")
  = (Ok {[ uplink := [("vlan/007", 7%Z)] ]}, status_read)
  ∧ "vlan/007" ≠ "vlan/" +:+ pretty 7%Z.
Proof. split; [by_running | vm_compute; discriminate]. Qed.

(** C10, amended: every entry of a list returned for a port that is not the
    native entry has the name "vlan/" followed by a non-empty run of decimal
    digits, and its id is the non-negative value of that same run; the name
    is "vlan/" followed by the decimal rendering of the id exactly when the
    run has no superfluous leading zero. *)
Theorem trunked_name_matches_id (self : Session) (ports : list Port)
    (c c' : Console) (result : gmap Port (list (string * Z))) (p : Port)
    (nets : list (string * Z)) (name : string) (id : Z) :
  get_port_networks self ports c = (Ok result, c') →
  result !! p = Some nets →
  (name, id) ∈ nets →
  name ≠ "vlan/native" →
  ∃ ds, ds ≠ "" ∧ all_bytes Py.is_digit ds = true
        ∧ name = "vlan/" +:+ ds ∧ id = Py.int ds ∧ (0 ≤ id)%Z
        ∧ (name = "vlan/" +:+ pretty id ↔ canonical ds = true).
Proof.
  intros Hget Hres Hin Hname.
  destruct (get_port_networks_Ok self ports c c' result Hget)
    as (port_configs & Hcfg & _ & Hout).
  destruct (Hout p nets Hres) as (v & Hp & Hok).
  destruct (port_networks_Ok v nets Hok) as (raw & range_str & Hn & Ht).
  rewrite (port_networks_fields v raw range_str Hn Ht) in Hok.
  assert ((name, id) ∈ trunked_networks range_str) as Htr.
  { destruct (native_vlan raw) as [n|]; injection Hok as <-; [| done].
    apply elem_of_app in Hin as [? | Hlast]; [done |].
    apply list_elem_of_singleton in Hlast. by injection Hlast as -> ->. }
  apply trunked_networks_entry in Htr as (ds & Hne & Hds & [= -> ->]).
  exists ds. repeat split; try done.
  - by apply int_nonneg.
  - rewrite pretty_int_unpadded by done. intros Heq%(inj _).
    rewrite Heq. apply unpadded_canonical.
  - intros Hcan. by rewrite pretty_int.
Qed.

Lemma trunked_name_matches_id_witness :
  ∃ ds, ds ≠ "" ∧ all_bytes Py.is_digit ds = true
        ∧ "vlan/1" = "vlan/" +:+ ds ∧ 1%Z = Py.int ds ∧ (0 ≤ 1)%Z
        ∧ ("vlan/1" = "vlan/" +:+ pretty 1%Z ↔ canonical ds = true).
Proof.
  apply (trunked_name_matches_id a_session [uplink]
           (status_console " 100 (Inactive)" "1") status_read
           {[ uplink := [("vlan/1", 1%Z); ("vlan/native", 100%Z)] ]} uplink
           [("vlan/1", 1%Z); ("vlan/native", 100%Z)]).
  - by_running.
  - by_running.
  - apply list_elem_of_here.
  - discriminate.
Defined.

(** ** Commands *)

Lemma wrote_wrote (c : Console) (xs ys : list call) :
  wrote (wrote c xs) ys = wrote c (xs ++ ys).
Proof. unfold wrote. simpl. by rewrite app_assoc. Qed.

Lemma sendline_wrote (self : Session) (line : string) (c : Console) :
  _sendline self line c = (Ok (), wrote c [Sendline line]).
Proof. reflexivity. Qed.

Lemma enable_vlan_wrote (self : Session) (vlan_id : string) (c : Console) :
  enable_vlan self vlan_id c =
    (Ok (), wrote c [Sendline "sw mode trunk";
                     Sendline ("sw trunk allowed vlan add " +:+ vlan_id)]).
Proof.
  unfold enable_vlan, mbind, M_bind.
  by rewrite !sendline_wrote, wrote_wrote.
Qed.

Lemma disable_vlan_wrote (self : Session) (vlan_id : string) (c : Console) :
  disable_vlan self vlan_id c =
    (Ok (), wrote c [Sendline ("sw trunk allowed vlan remove " +:+ vlan_id)]).
Proof. reflexivity. Qed.

(** C8: two calls of [enable_vlan] with "10" in a row write the same two
    lines twice, four lines in all; neither call raises and nothing is left
    out the second time. *)
Theorem enable_vlan_twice (self : Session) (c : Console) :
  enable_vlan self "10" c
    = (Ok (), wrote c [Sendline "sw mode trunk";
                       Sendline "sw trunk allowed vlan add 10"])
  ∧ (_ ← enable_vlan self "10"; enable_vlan self "10") c
    = (Ok (), wrote c [Sendline "sw mode trunk";
                       Sendline "sw trunk allowed vlan add 10";
                       Sendline "sw mode trunk";
                       Sendline "sw trunk allowed vlan add 10"]).
Proof.
  split; [apply enable_vlan_wrote |].
  unfold mbind at 1, M_bind. by rewrite !enable_vlan_wrote, wrote_wrote.
Qed.

(** C6: [set_native] with old "5" and new "10" writes the line of
    [disable_vlan] for 5, then "sw trunk native vlan 10", then the two lines
    of [enable_vlan] for 10, and so for every old and new VLAN. Without an
    old VLAN, whatever the new one, the first step is left out and the other
    two follow in the same order. *)
Theorem set_native_order (self : Session) (c : Console) :
  set_native self (Some "5") "10" c
    = (Ok (), wrote c [Sendline "sw trunk allowed vlan remove 5";
                       Sendline "sw trunk native vlan 10";
                       Sendline "sw mode trunk";
                       Sendline "sw trunk allowed vlan add 10"])
  ∧ (∀ old new,
       set_native self (Some old) new c
       = (_ ← disable_vlan self old;
          _ ← _sendline self ("sw trunk native vlan " +:+ new);
          enable_vlan self new) c
       ∧ set_native self (Some old) new c
         = (Ok (), wrote c [Sendline ("sw trunk allowed vlan remove " +:+ old);
                            Sendline ("sw trunk native vlan " +:+ new);
                            Sendline "sw mode trunk";
                            Sendline ("sw trunk allowed vlan add " +:+ new)]))
  ∧ (∀ new,
       set_native self None new c
       = (_ ← _sendline self ("sw trunk native vlan " +:+ new);
          enable_vlan self new) c
       ∧ set_native self None new c
         = (Ok (), wrote c [Sendline ("sw trunk native vlan " +:+ new);
                            Sendline "sw mode trunk";
                            Sendline ("sw trunk allowed vlan add " +:+ new)])).
Proof.
  assert (∀ old new,
    set_native self (Some old) new c
    = (Ok (), wrote c [Sendline ("sw trunk allowed vlan remove " +:+ old);
                       Sendline ("sw trunk native vlan " +:+ new);
                       Sendline "sw mode trunk";
                       Sendline ("sw trunk allowed vlan add " +:+ new)])) as H.
  { intros old new. unfold set_native, mbind, M_bind.
    by rewrite disable_vlan_wrote, sendline_wrote, enable_vlan_wrote,
      !wrote_wrote. }
  split; [apply (H "5" "10") |]. split.
  - intros old new. split; [reflexivity | apply H].
  - intros new. split; [reflexivity |].
    unfold set_native, mbind, M_bind, mret, M_ret.
    by rewrite sendline_wrote, enable_vlan_wrote, !wrote_wrote.
Qed.

(** ** Escaped patterns *)

Lemma parse_go_alnum (c : ascii) (acc : list (Re.atom * Re.quant)) (r : string) :
  Re.is_alnum c = true →
  Re.parse_go Re.Plain acc (String c r)
  = Re.parse_go Re.Plain ((Re.Lit c, Re.One) :: acc) r.
Proof. destruct c as [[] [] [] [] [] [] [] []]; simpl; done. Qed.

Lemma parse_go_escaped (c : ascii) (acc : list (Re.atom * Re.quant))
    (r : string) :
  Re.is_alnum c = false → c ≠ "000"%char →
  Re.parse_go Re.Plain acc (String "\" (String c r))
  = Re.parse_go Re.Plain ((Re.Lit c, Re.One) :: acc) r.
Proof. destruct c as [[] [] [] [] [] [] [] []]; simpl; done. Qed.

Lemma parse_go_escape (s : string) (acc : list (Re.atom * Re.quant)) :
  Re.parse_go Re.Plain acc (Re.escape s) = Some (rev acc ++ lits s).
Proof.
  revert acc. induction s as [|c s IH]; intros acc; simpl Re.escape.
  { simpl. by rewrite app_nil_r. }
  assert (rev ((Re.Lit c, Re.One) :: acc) ++ lits s
          = rev acc ++ lits (String c s)) as Hrev.
  { simpl. by rewrite <- app_assoc. }
  destruct (Re.is_alnum c) eqn:Hc.
  - by rewrite parse_go_alnum, IH, Hrev.
  - destruct (decide (c = "000"%char)) as [-> | Hz].
    + change (Re.parse_go Re.Plain acc ("\000" +:+ Re.escape s))
        with (Re.parse_go Re.Plain ((Re.Lit "000", Re.One) :: acc) (Re.escape s)).
      by rewrite IH, <- Hrev.
    + by rewrite parse_go_escaped, IH, Hrev.
Qed.

Lemma accepts_lits (s t : string) : Re.accepts (lits s) t = true ↔ t = s.
Proof.
  revert t. induction s as [|c s IH]; intros [|d t]; simpl; try done.
  rewrite andb_true_iff, bool_decide_eq_true, IH. split.
  - by intros [-> ->].
  - by intros [= -> ->].
Qed.

(** An escaped pattern matches the text it was made from and nothing else. *)
Lemma fullmatch_escape (s t : string) :
  Re.fullmatch (Re.escape s) t = true ↔ t = s.
Proof.
  unfold Re.fullmatch, Re.parse. rewrite parse_go_escape. apply accepts_lits.
Qed.

(** Left as it is, a prompt with [.] and [*] in it is a pattern with
    wildcards; escaped, it is not. *)
Lemma escape_neutralizes :
  Re.fullmatch "sw.tch*#" "switc#" = true
  ∧ Re.fullmatch (Re.escape "sw.tch*#") "switc#" = false
  ∧ Re.fullmatch (Re.escape "sw.tch*#") "sw.tch*#" = true
  ∧ Re.escape "sw.tch*#" = "sw\.tch\*\#".
Proof. by vm_compute. Qed.

Lemma drop_last_snoc (s : string) (c : ascii) :
  Py.drop_last (s +:+ String c "") = s.
Proof.
  induction s as [|d s IH]; [done |]. str_simpl. simpl.
  rewrite IH. by destruct s.
Qed.

(** ** Prompts *)

(** C5: when the three waits of the login succeed and the banner, trimmed,
    ends in "#", [connect] returns a session whose three patterns match
    exactly one text each: the raw prompt, the raw prompt with its final "#"
    replaced by "(config)#", and the same with "(config-if)#". Since no other
    text matches, a byte of the banner that is a metacharacter of patterns
    stands for itself only. *)
Theorem connect_prompts_literal (sw : Switch) (c : Console)
    (i1 i2 i3 : nat) (t1 t2 banner raw : string) (rest : list outcome) :
  script c = Matched i1 t1 :: Matched i2 t2 :: Matched i3 banner :: rest →
  Py.strip_chars blanks banner = raw +:+ "#" →
  ∃ self c',
    connect sw c = (Ok self, c')
    ∧ (∀ t, Re.fullmatch (main_prompt self) t = true ↔ t = raw +:+ "#")
    ∧ (∀ t, Re.fullmatch (config_prompt self) t = true
            ↔ t = raw +:+ "(config)#")
    ∧ (∀ t, Re.fullmatch (if_prompt self) t = true
            ↔ t = raw +:+ "(config-if)#").
Proof.
  intros Hsc Hraw. destruct c as [sc w aft]. simpl in Hsc. subst sc.
  eexists _, _. split; [reflexivity |].
  cbn [main_prompt config_prompt if_prompt after]. rewrite Hraw.
  rewrite drop_last_snoc.
  repeat split; intros H; try (by apply fullmatch_escape in H);
    by apply fullmatch_escape.
Qed.

Lemma connect_prompts_literal_witness :
  ∃ self c',
    connect (mkSwitch "10.0.0.1" "admin" "secret") login_console = (Ok self, c')
    ∧ (∀ t, Re.fullmatch (main_prompt self) t = true ↔ t = "switch1" +:+ "#")
    ∧ (∀ t, Re.fullmatch (config_prompt self) t = true
            ↔ t = "switch1" +:+ "(config)#")
    ∧ (∀ t, Re.fullmatch (if_prompt self) t = true
            ↔ t = "switch1" +:+ "(config-if)#").
Proof.
  apply (connect_prompts_literal _ login_console 0 0 0 "User Name:" "Password:"
           (String "013" (String "010" "switch1# ")) "switch1" []);
    reflexivity.
Defined.

(** ** The expect loop *)

(** One turn of the loop is one wait on the four alternatives. *)
Lemma int_config_loop_expect (c : Console) (k : string)
    (result : gmap string string) :
  int_config_loop (script c) (written c) (after c) k result =
    match console.expect alternatives c with
    | (Ok 0, c') =>
        let c'' := (console.send " " c').2 in
        int_config_loop (script c'') (written c'') (after c'') k result
    | (Ok 1, c') => (Ok result, c')
    | (Ok 2, c') =>
        match Py.unpack2 (Py.split1 ":" (after c')) with
        | Ok (k', v) =>
            int_config_loop (script c') (written c') (after c') k'
                            (<[k' := v]> result)
        | Raise e => (Raise e, c')
        end
    | (Ok 3, c') =>
        match Py.getitem result k with
        | Ok old =>
            int_config_loop (script c') (written c') (after c') k
                            (<[k := old +:+ after c']> result)
        | Raise e => (Raise e, c')
        end
    | (Ok _, c') =>
        int_config_loop (script c') (written c') (after c') k result
    | (Raise e, c') => (Raise e, c')
    end.
Proof.
  by destruct c as [[|[index text | |] sc] w aft].
Qed.

Lemma split1_first_colon (k v : string) :
  all_bytes no_colon k = true →
  Py.split1 ":" (k +:+ String ":" v) = [k; v].
Proof.
  induction k as [|c k IH]; str_simpl; simpl; [done |].
  intros [Hc Hk]%andb_prop. unfold no_colon in Hc.
  apply negb_true_iff, bool_decide_eq_false in Hc.
  rewrite decide_False by done. by rewrite IH.
Qed.

Lemma paged_app (xs ys : list outcome) : paged (xs ++ ys) = paged xs ++ paged ys.
Proof.
  induction xs as [|[[|[|[|[|n]]]] text | |] xs IH]; simpl; by rewrite ?IH.
Qed.

(** Banners and continuation lines that follow the line of [k]. *)
Lemma loop_continuations (conts sc : list outcome) (w : list call)
    (aft k old : string) (r : gmap string string) :
  forallb is_continuation conts = true →
  r !! k = Some old →
  ∃ aft' r',
    int_config_loop (conts ++ sc) w aft k r
    = int_config_loop sc (w ++ paged conts) aft' k r'
    ∧ r' !! k = Some (old +:+ appended conts).
Proof.
  revert w aft old r.
  induction conts as [|o conts IH]; intros w aft old r Hall Hk.
  { exists aft, r. simpl. by rewrite app_nil_r, append_nil_r. }
  simpl in Hall. apply andb_prop in Hall as [Ho Hall].
  destruct o as [[|[|[|[|n]]]] text | |]; try discriminate Ho; simpl.
  - destruct (IH (w ++ [Send " "]) text old r Hall Hk) as (aft' & r' & -> & Hr').
    exists aft', r'. by rewrite <- app_assoc.
  - destruct (IH w text (old +:+ text) (<[k := old +:+ text]> r) Hall)
      as (aft' & r' & Hloop & Hr'); [by rewrite lookup_insert_eq |].
    exists aft', r'. unfold Py.getitem. rewrite Hk, Hloop.
    by rewrite Hr', append_assoc.
Qed.

(** Lines of other keys, with their own continuations. *)
Lemma loop_other_keys (k : string) (others sc : list outcome) (w : list call)
    (aft cur : string) (r : gmap string string) :
  forallb (keeps_off k) others = true →
  cur ≠ k → is_Some (r !! cur) →
  ∃ aft' cur' r',
    int_config_loop (others ++ sc) w aft cur r
    = int_config_loop sc (w ++ paged others) aft' cur' r'
    ∧ r' !! k = r !! k.
Proof.
  revert w aft cur r.
  induction others as [|o others IH]; intros w aft cur r Hall Hcur Hsome.
  { exists aft, cur, r. simpl. by rewrite app_nil_r. }
  simpl in Hall. apply andb_prop in Hall as [Ho Hall].
  destruct o as [[|[|[|[|n]]]] text | |]; try discriminate Ho; simpl.
  - destruct (IH (w ++ [Send " "]) text cur r Hall Hcur Hsome)
      as (aft' & cur' & r' & -> & Hr').
    exists aft', cur', r'. by rewrite <- app_assoc.
  - simpl in Ho.
    destruct (Py.unpack2 (Py.split1 ":" text)) as [[k' v] | e]; [| done].
    apply negb_true_iff, bool_decide_eq_false in Ho.
    destruct (IH w text k' (<[k' := v]> r) Hall Ho)
      as (aft' & cur' & r' & -> & Hr'); [by rewrite lookup_insert_eq |].
    exists aft', cur', r'. by rewrite Hr', lookup_insert_ne.
  - destruct Hsome as [old Hold]. unfold Py.getitem. rewrite Hold.
    destruct (IH w text cur (<[cur := old +:+ text]> r) Hall Hcur)
      as (aft' & cur' & r' & -> & Hr'); [by rewrite lookup_insert_eq |].
    exists aft', cur', r'. by rewrite Hr', lookup_insert_ne.
  - destruct (IH w text cur r Hall Hcur Hsome) as (aft' & cur' & r' & -> & Hr').
    by exists aft', cur', r'.
Qed.

(** C2: what each of the four alternatives does to the loop, and what that
    gives for a value with continuation lines. A pagination banner (index 0)
    writes one space and the loop goes on; the "Classification rules:" line
    (index 1) ends it with the dict built so far; a Key:Value line (index 2)
    is cut at its first colon, stored over whatever the key held, and its
    key becomes the current key; a continuation line (index 3) is appended
    to the value under the current key. So when the line of [k] is followed
    by banners and continuation lines, then by lines of other keys with
    their own continuations, and then by the end marker, the loop returns a
    dict in which [k] holds its value followed by the texts of its
    continuation lines in order, and one space was written per banner. *)
Theorem continuation_appended (line k v e aft k0 : string)
    (conts others tail : list outcome) (w : list call)
    (r0 : gmap string string) :
  Py.unpack2 (Py.split1 ":" line) = Ok (k, v) →
  forallb is_continuation conts = true →
  starts_with_key others = true →
  forallb (keeps_off k) others = true →
  (∃ result,
     int_config_loop (Matched 2 line :: conts ++ others ++ Matched 1 e :: tail)
                     w aft k0 r0
     = (Ok result, mkConsole tail (w ++ paged conts ++ paged others) e)
     ∧ result !! k = Some (v +:+ appended conts))
  ∧ (∀ text sc,
       int_config_loop (Matched 0 text :: sc) w aft k0 r0
       = int_config_loop sc (w ++ [Send " "]) text k0 r0)
  ∧ (∀ text sc,
       int_config_loop (Matched 1 text :: sc) w aft k0 r0
       = (Ok r0, mkConsole sc w text))
  ∧ (∀ key value sc,
       all_bytes no_colon key = true →
       int_config_loop (Matched 2 (key +:+ String ":" value) :: sc) w aft k0 r0
       = int_config_loop sc w (key +:+ String ":" value) key
                         (<[key := value]> r0)
       ∧ <[key := value]> r0 !! key = Some value)
  ∧ (∀ text sc old,
       r0 !! k0 = Some old →
       int_config_loop (Matched 3 text :: sc) w aft k0 r0
       = int_config_loop sc w text k0 (<[k0 := old +:+ text]> r0)).
Proof.
  intros Hline Hconts Hhead Hothers.
  split; [| split; [done | split; [done | split]]].
  - simpl. rewrite Hline.
    destruct (loop_continuations conts (others ++ Matched 1 e :: tail) w line
                k v (<[k := v]> r0) Hconts) as (aft1 & r1 & -> & Hr1);
      [by rewrite lookup_insert_eq |].
    destruct others as [|[[|[|[|[|n]]]] text | |] others];
      try discriminate Hhead.
    + exists r1. simpl. by rewrite app_nil_r.
    + simpl in Hothers. apply andb_prop in Hothers as [Ho Hothers]. simpl.
      destruct (Py.unpack2 (Py.split1 ":" text)) as [[k' v'] | ?]; [| done].
      apply negb_true_iff, bool_decide_eq_false in Ho.
      destruct (loop_other_keys k others (Matched 1 e :: tail)
                  (w ++ paged conts) text k' (<[k' := v']> r1) Hothers Ho)
        as (aft2 & cur2 & r2 & -> & Hr2); [by rewrite lookup_insert_eq |].
      exists r2. simpl. rewrite <- app_assoc. split; [done |].
      by rewrite Hr2, lookup_insert_ne.
  - intros key value sc Hkey. simpl.
    rewrite split1_first_colon by done. simpl.
    by rewrite lookup_insert_eq.
  - intros text sc old Hold. simpl. unfold Py.getitem. by rewrite Hold.
Qed.

Lemma continuation_appended_witness :
  ∃ result,
    int_config_loop wrapped_transcript [] "" "Port" {[ "Port" := " gi1/0/1" ]}
    = (Ok result, mkConsole [] [Send " "] "Classification rules:")
    ∧ result !! "Trunking VLANs Enabled" = Some " 1, 2, 3".
Proof.
  exact (proj1 (continuation_appended
                  "Trunking VLANs Enabled: 1," "Trunking VLANs Enabled" " 1,"
                  "Classification rules:" "" "Port"
                  [Matched 3 " 2,"; Matched 0 banner; Matched 3 " 3"]
                  [Matched 2 "Name: uplink"; Matched 3 " to core"] []
                  [] {[ "Port" := " gi1/0/1" ]}
                  eq_refl eq_refl eq_refl eq_refl)).
Defined.

(** ** A switch that falls silent *)

Lemma int_config_unfold (self : Session) (interface : string) (c : Console) :
  _int_config self interface c =
    match console.expect (take 1 (drop 2 alternatives))
            (wrote c [Sendline ("show int sw " +:+ interface)]) with
    | (Ok _, c1) =>
        match Py.unpack2 (Py.split1 ":" (after c1)) with
        | Ok (k, v) =>
            match int_config_loop (script c1) (written c1) (after c1) k
                    {[k := v]} with
            | (Ok result, c2) =>
                match console.expect [main_prompt self] c2 with
                | (Ok _, c3) => (Ok result, c3)
                | (Raise e, c3) => (Raise e, c3)
                end
            | (Raise e, c2) => (Raise e, c2)
            end
        | Raise e => (Raise e, c1)
        end
    | (Raise e, c1) => (Raise e, c1)
    end.
Proof.
  unfold _int_config, mbind, M_bind. rewrite sendline_wrote.
  destruct (console.expect _ _) as [[i | e] c1]; [| done].
  unfold console.get_after, lift.
  destruct (Py.unpack2 _) as [[k v] | e]; [| done].
  destruct (int_config_loop _ _ _ _ _) as [[result | e] c2]; [| done].
  by destruct (console.expect _ c2) as [[j | e] c3].
Qed.

Lemma expect_silent (patterns : list string) (sc : list outcome)
    (w : list call) (aft : string) :
  silent sc = true →
  ∃ c', console.expect patterns (mkConsole sc w aft) = (Raise TIMEOUT, c').
Proof. destruct sc as [|[| |] sc]; simpl; try done; eauto. Qed.

Lemma loop_silent (self : Session) (os rest : list outcome) (w : list call)
    (aft k : string) (r : gmap string string) :
  waiting_loop os = true → silent rest = true → is_Some (r !! k) →
  ∃ c',
    match int_config_loop (os ++ rest) w aft k r with
    | (Ok result, c2) =>
        match console.expect [main_prompt self] c2 with
        | (Ok _, c3) => (Ok result, c3)
        | (Raise e, c3) => (Raise e, c3)
        end
    | (Raise e, c2) => (Raise e, c2)
    end = (Raise TIMEOUT, c').
Proof.
  revert w aft k r.
  induction os as [|o os IH]; intros w aft k r Hos Hrest Hk.
  { destruct rest as [|[| |] rest]; simpl; try done; eauto. }
  assert (inconclusive o = true ∧ waiting_loop os = true
          ∨ ∃ text, o = Matched 1 text ∧ os = []) as [[Ho Hos'] | (text & -> & ->)].
  { simpl in Hos. destruct o as [[|[|n]] text | |], os;
      try (apply andb_prop in Hos as [? ?]); eauto. }
  - destruct o as [[|[|[|[|n]]]] text | |]; try discriminate Ho; simpl.
    + by apply IH.
    + simpl in Ho.
      destruct (Py.unpack2 (Py.split1 ":" text)) as [[k' v] | e]; [| done].
      apply IH; [done | done |]. by rewrite lookup_insert_eq.
    + destruct Hk as [old Hold]. unfold Py.getitem. rewrite Hold.
      apply IH; [done | done |]. by rewrite lookup_insert_eq.
    + by apply IH.
  - simpl. destruct (expect_silent [main_prompt self] rest w text Hrest)
      as (c' & ->). eauto.
Qed.

(** C7, as stated, does not hold: when the switch stays silent the query
    raises the exception of the wait, [pexpect.TIMEOUT], which is not a
    ConsoleProtocolError; the module has no such exception. *)
Lemma timeout_is_not_protocol_error :
  _int_config (mkSession "" "" "switch1\#" (mkSwitch "" "" "")) "gi1/0/1"
              (mkConsole [] [] "")
  = (Raise TIMEOUT, mkConsole [] [Sendline "show int sw gi1/0/1"] "")
  ∧ exn_class TIMEOUT ≠ "ConsoleProtocolError".
Proof. split; [reflexivity | discriminate]. Qed.

(** C7, amended: when a wait of the interface-status query finds the switch
    silent (the first wait, a wait of the loop, or the wait for the main
    prompt), the query raises the wait's own [pexpect.TIMEOUT], whose class
    is not ConsoleProtocolError, and returns no dict, whatever had been
    parsed before. *)
Theorem silent_switch_raises_timeout (self : Session) (interface : string)
    (c : Console) (os rest : list outcome) :
  script c = os ++ rest →
  waiting os = true →
  silent rest = true →
  ∃ c', _int_config self interface c = (Raise TIMEOUT, c')
        ∧ exn_class TIMEOUT ≠ "ConsoleProtocolError".
Proof.
  intros Hsc Hos Hrest. destruct c as [sc w aft]. simpl in Hsc. subst sc.
  rewrite int_config_unfold. unfold wrote. simpl script. simpl written.
  simpl after.
  destruct os as [|[index text | |] os]; try discriminate Hos.
  - destruct (expect_silent (take 1 (drop 2 alternatives)) rest
                (w ++ [Sendline ("show int sw " +:+ interface)]) aft Hrest)
      as (c' & Hc'). simpl app. rewrite Hc'. eauto.
  - simpl in Hos |- *.
    destruct (Py.unpack2 (Py.split1 ":" text)) as [[k v] | e]; [| done].
    destruct (loop_silent self os rest
                (w ++ [Sendline ("show int sw " +:+ interface)]) text k
                {[k := v]} Hos Hrest) as (c' & Hc');
      [by rewrite lookup_singleton_eq |].
    rewrite Hc'. by eauto.
Qed.

Lemma silent_switch_raises_timeout_witness :
  ∃ c', _int_config (mkSession "" "" "switch1\#" (mkSwitch "" "" "")) "gi1/0/1"
          (mkConsole [Matched 0 "Port: gi1/0/1"; Matched 3 " more"; TimedOut;
                      Matched 1 "Classification rules:"] [] "")
        = (Raise TIMEOUT, c')
        ∧ exn_class TIMEOUT ≠ "ConsoleProtocolError".
Proof.
  apply (silent_switch_raises_timeout _ _ _
           [Matched 0 "Port: gi1/0/1"; Matched 3 " more"]
           [TimedOut; Matched 1 "Classification rules:"]); reflexivity.
Defined.

(** ** A port without VLAN fields *)

Lemma missing_field_raises_witness :
  port_networks {[ "Port" := " gi1/0/1" ]} ≠ Ok []
  ∧ ∃ key,
      get_port_networks a_session [uplink] bare_console
      = (Raise (KeyError key),
         mkConsole [] [Sendline "show int sw gi1/0/1"] "switch1#")
      ∧ (key = native_field ∨ key = trunk_field).
Proof.
  apply (missing_field_raises a_session [uplink] bare_console
           (mkConsole [] [Sendline "show int sw gi1/0/1"] "switch1#")
           {[ uplink := {[ "Port" := " gi1/0/1" ]} ]} uplink
           {[ "Port" := " gi1/0/1" ]}).
  - by_running.
  - by_running.
  - left. by_running.
Defined.

(** * Further properties of the driver *)

(** X1: [connect] returns a session exactly when its three waits (user
    name, password, prompt) all end in a match; it has then written the user
    name and the password, in that order, and used up three outcomes. When
    wait number n+1 is the first not to match, [connect] raises the exception
    of that wait ([TIMEOUT], or [EOF] when the channel closed) and has written
    only the first n of the two credentials: the password is never written
    before the password challenge was seen. *)
Theorem connect_outcomes (sw : Switch) (c : Console) :
  match leading_matches (script c) with
  | S (S (S _)) =>
      ∃ self c', connect sw c = (Ok self, c')
                 ∧ switch self = sw
                 ∧ script c' = drop 3 (script c)
                 ∧ written c'
                   = written c
                     ++ [Sendline (username sw); Sendline (password sw)]
  | n =>
      ∃ c', connect sw c = (Raise (failure (drop n (script c))), c')
            ∧ written c'
              = written c
                ++ take n [Sendline (username sw); Sendline (password sw)]
  end.
Proof.
  destruct c as [sc w aft]. simpl.
  destruct sc as [|[i1 t1| |] sc]; simpl;
    try (eexists; split; [reflexivity |]; simpl; by rewrite app_nil_r).
  destruct sc as [|[i2 t2| |] sc]; simpl;
    try (eexists; split; [reflexivity | done]).
  destruct sc as [|[i3 t3| |] sc]; simpl;
    try (eexists; split; [reflexivity | simpl; by rewrite <- app_assoc]).
  eexists _, _. split; [reflexivity |]. simpl. by rewrite <- app_assoc.
Qed.






(** X3: a command that only writes lines, run between [enter_if_prompt] and
    [exit_if_prompt], gives a command that only writes lines: "config",
    "int <interface>", the lines of the command, "exit", "exit". Nothing is
    waited for and nothing else of the console changes. *)
Theorem if_prompt_bracket (self : Session) (interface : string) (m : M unit)
    (lines : list string) :
  writes_only m lines →
  writes_only (_ ← enter_if_prompt self interface; _ ← m; exit_if_prompt self)
              (["config"; "int " +:+ interface] ++ lines ++ ["exit"; "exit"]).
Proof.
  intros Hm c.
  unfold mbind, M_bind, enter_if_prompt, exit_if_prompt, _sendline,
    console.sendline.
  simpl. rewrite Hm. unfold wrote, mbind, M_bind. simpl.
  rewrite !fmap_app. simpl. by rewrite <- !app_assoc.
Qed.

Lemma disable_native_writes (self : Session) (vlan_id : string) :
  writes_only (disable_native self vlan_id)
              ["sw trunk allowed vlan remove " +:+ vlan_id;
               "sw trunk native vlan none"].
Proof.
  intros c. unfold disable_native, mbind, M_bind.
  by rewrite disable_vlan_wrote, sendline_wrote, wrote_wrote.
Qed.

Lemma if_prompt_bracket_witness :
  writes_only (_ ← enter_if_prompt a_session "gi1/0/1";
               _ ← disable_native a_session "5";
               exit_if_prompt a_session)
              (["config"; "int " +:+ "gi1/0/1"]
               ++ ["sw trunk allowed vlan remove " +:+ "5";
                   "sw trunk native vlan none"]
               ++ ["exit"; "exit"]).
Proof.
  apply (if_prompt_bracket a_session "gi1/0/1" (disable_native a_session "5")).
  apply disable_native_writes.
Defined.


Lemma int_config_query_rest (self : Session) (interface : string) (c : Console) :
  _int_config self interface c =
    match console.expect (take 1 (drop 2 alternatives))
            (wrote c [Sendline ("show int sw " +:+ interface)]) with
    | (Ok _, c1) =>
        match Py.unpack2 (Py.split1 ":" (after c1)) with
        | Ok (k, v) =>
            query_rest self (script c1) (written c1) (after c1) k {[k := v]}
        | Raise e => (Raise e, c1)
        end
    | (Raise e, c1) => (Raise e, c1)
    end.
Proof. apply int_config_unfold. Qed.

Lemma query_rest_completes (self : Session) (sc : list outcome) (w : list call)
    (aft k : string) (r : gmap string string) :
  is_Some (r !! k) →
  is_Ok (query_rest self sc w aft k r).1 = completes_loop sc.
Proof.
  revert w aft k r. induction sc as [|o sc IH]; intros w aft k r Hk; [done |].
  destruct o as [[|[|[|[|n]]]] text | |]; unfold query_rest; simpl; try done.
  - by apply IH.
  - by destruct sc as [|[| |] sc].
  - destruct (Py.unpack2 (Py.split1 ":" text)) as [[k' v] | e]; [| done].
    simpl. apply IH. by rewrite lookup_insert_eq.
  - destruct Hk as [old Hold]. unfold Py.getitem. rewrite Hold.
    apply IH. by rewrite lookup_insert_eq.
  - by apply IH.
Qed.

(** X4: [_int_config] returns a dict exactly when the outcomes of its waits
    are: a first line with a colon, then any number of outcomes that keep
    the loop going (banners, lines with a colon, continuation lines), the
    end marker, and a match of the main prompt. In every other case it
    raises. *)
Theorem int_config_returns_iff (self : Session) (interface : string)
    (c : Console) :
  is_Ok (_int_config self interface c).1 = completes (script c).
Proof.
  rewrite int_config_query_rest. destruct c as [sc w aft]. unfold wrote. simpl.
  destruct sc as [|[i text | |] sc]; simpl; try done.
  destruct (Py.unpack2 (Py.split1 ":" text)) as [[k v] | e]; [| done].
  apply query_rest_completes. by rewrite lookup_singleton_eq.
Qed.

Lemma loop_writes (sc : list outcome) (w : list call) (aft k : string)
    (r : gmap string string) :
  ∃ n, written (int_config_loop sc w aft k r).2 = w ++ replicate n (Send " ")
       ∧ script (int_config_loop sc w aft k r).2 `suffix_of` sc.
Proof.
  revert w aft k r. induction sc as [|o sc IH]; intros w aft k r.
  { exists 0. simpl. by rewrite app_nil_r. }
  assert (∀ w' aft' k' r',
    ∃ n, written (int_config_loop sc w' aft' k' r').2 = w' ++ replicate n (Send " ")
         ∧ script (int_config_loop sc w' aft' k' r').2 `suffix_of` o :: sc) as IH'.
  { intros w' aft' k' r'. destruct (IH w' aft' k' r') as (n & Hw & Hs).
    exists n. split; [done | by apply suffix_cons_r]. }
  assert (∃ n, w = w ++ replicate n (Send " ") ∧ sc `suffix_of` o :: sc)
    as Hstop.
  { exists 0. simpl. rewrite app_nil_r.
    split; [done | by apply suffix_cons_r]. }
  destruct o as [[|[|[|[|n]]]] text | |]; simpl.
  - destruct (IH (w ++ [Send " "]) text k r) as (n & Hw & Hs).
    exists (S n). rewrite Hw. simpl. rewrite <- app_assoc.
    split; [done | by apply suffix_cons_r].
  - apply Hstop.
  - destruct (Py.unpack2 (Py.split1 ":" text)) as [[k' v] | e]; [apply IH' |].
    apply Hstop.
  - destruct (Py.getitem r k) as [old | e]; [apply IH' | apply Hstop].
  - apply IH'.
  - apply Hstop.
  - apply Hstop.
Qed.

Lemma expect_writes (patterns : list string) (c : Console) :
  written (console.expect patterns c).2 = written c
  ∧ script (console.expect patterns c).2 `suffix_of` script c.
Proof.
  destruct c as [[|[| |] sc] w aft]; simpl; split; try done;
    by apply suffix_cons_r.
Qed.

Lemma int_config_writes (self : Session) (interface : string)
    (c : Console) :
  ∃ n, written (_int_config self interface c).2
       = written c ++ Sendline ("show int sw " +:+ interface)
                      :: replicate n (Send " ")
       ∧ script (_int_config self interface c).2 `suffix_of` script c.
Proof.
  rewrite int_config_query_rest. destruct c as [sc w aft]. unfold wrote. simpl.
  set (w1 := w ++ [Sendline ("show int sw " +:+ interface)]).
  assert (∀ sc',
    sc' `suffix_of` sc →
    ∃ n, w1 = w ++ Sendline ("show int sw " +:+ interface)
                   :: replicate n (Send " ")
         ∧ sc' `suffix_of` sc) as Hstop.
  { intros sc' Hs. exists 0. simpl. split; [| done]. done. }
  destruct sc as [|[i text | |] sc]; simpl;
    try (apply Hstop; try done; by apply suffix_cons_r).
  destruct (Py.unpack2 (Py.split1 ":" text)) as [[k v] | e];
    [| apply Hstop; by apply suffix_cons_r].
  unfold query_rest.
  destruct (loop_writes sc w1 text k {[k := v]}) as (n & Hw & Hs).
  destruct (int_config_loop sc w1 text k {[k := v]}) as [[result | e] c2];
    simpl in Hw, Hs.
  - destruct (expect_writes [main_prompt self] c2) as [Hw' Hs'].
    destruct (console.expect [main_prompt self] c2) as [[j | e] c3];
      simpl in Hw', Hs' |- *; exists n; rewrite Hw', Hw; unfold w1;
      rewrite <- app_assoc;
      (split; [done | by apply suffix_cons_r; etrans]).
  - exists n. simpl. rewrite Hw. unfold w1. rewrite <- app_assoc.
    split; [done | by apply suffix_cons_r].
Qed.

(** X5: whatever the switch answers, [_int_config] writes the command
    "show int sw <interface>" once, first, and after it nothing but single
    spaces to page forward; the outcomes it leaves are a suffix of those it
    found. *)
Theorem int_config_only_pages (self : Session) (interface : string)
    (c : Console) :
  ∃ n, written (_int_config self interface c).2
       = written c ++ Sendline ("show int sw " +:+ interface)
                      :: replicate n (Send " ")
       ∧ script (_int_config self interface c).2 `suffix_of` script c.
Proof. apply int_config_writes. Qed.


Lemma split1_inv (text k v : string) :
  Py.unpack2 (Py.split1 ":" text) = Ok (k, v) →
  all_bytes no_colon k = true ∧ text = k +:+ String ":" v.
Proof.
  revert k v. induction text as [|c text IH]; intros k v; [done |].
  simpl. destruct (decide (c = ":"%char)) as [-> | Hc].
  { by intros [= <- <-]. }
  destruct (Py.split1 ":" text) as [|x [|y [|z l]]] eqn:Hs; try done.
  intros [= <- <-]. destruct (IH x y eq_refl) as [Hx ->].
  split; [| done]. simpl. rewrite Hx. unfold no_colon.
  by rewrite bool_decide_eq_false_2.
Qed.

Lemma from_lines_insert (sc : list outcome) (r : gmap string string)
    (i : nat) (text k v : string) :
  from_lines sc r → Matched i text ∈ sc →
  Py.unpack2 (Py.split1 ":" text) = Ok (k, v) →
  from_lines sc (<[k := v]> r).
Proof.
  intros Hr Hin [Hk ->]%split1_inv key w.
  destruct (decide (k = key)) as [<- | Hne].
  - rewrite lookup_insert_eq. intros [= <-]. split; [done |].
    exists i, v, "". by rewrite append_nil_r.
  - rewrite lookup_insert_ne by done. apply Hr.
Qed.

Lemma from_lines_append (sc : list outcome) (r : gmap string string)
    (k old text : string) :
  from_lines sc r → r !! k = Some old →
  from_lines sc (<[k := old +:+ text]> r).
Proof.
  intros Hr Hold key w. destruct (decide (k = key)) as [<- | Hne].
  - rewrite lookup_insert_eq. intros [= <-].
    destruct (Hr k old Hold) as (Hk & i & v0 & more & Hin & ->).
    split; [done |]. exists i, v0, (more +:+ text). by rewrite append_assoc.
  - rewrite lookup_insert_ne by done. apply Hr.
Qed.

Lemma loop_from_lines (all sc : list outcome) (w : list call) (aft k : string)
    (r result : gmap string string) (c' : Console) :
  (∀ o, o ∈ sc → o ∈ all) → from_lines all r →
  int_config_loop sc w aft k r = (Ok result, c') →
  from_lines all result.
Proof.
  revert w aft k r. induction sc as [|o sc IH]; intros w aft k r Hsub Hr; [done |].
  assert (∀ o', o' ∈ sc → o' ∈ all) as Hsub'.
  { intros o' Ho'. apply Hsub. by apply elem_of_cons; right. }
  assert (o ∈ all) as Ho by (apply Hsub, list_elem_of_here).
  destruct o as [[|[|[|[|n]]]] text | |]; simpl; try done.
  - by apply IH.
  - by intros [= <- _].
  - destruct (Py.unpack2 (Py.split1 ":" text)) as [[k' v] | e] eqn:Hs; [| done].
    apply IH; [done |]. by apply from_lines_insert with 2 text.
  - unfold Py.getitem. destruct (r !! k) as [old|] eqn:Hold; [| done].
    apply IH; [done |]. by apply from_lines_append.
  - by apply IH.
Qed.

(** X7: every key of the dict returned by [_int_config] is free of colons
    and is the text before the first colon of a line matched during the
    query; its value starts with the rest of that line (continuation lines
    may follow). *)
Theorem int_config_keys (self : Session) (interface : string) (c c' : Console)
    (result : gmap string string) (key v : string) :
  _int_config self interface c = (Ok result, c') →
  result !! key = Some v →
  all_bytes no_colon key = true
  ∧ ∃ i v0 more,
      Matched i (key +:+ String ":" v0) ∈ script c ∧ v = v0 +:+ more.
Proof.
  rewrite int_config_query_rest. destruct c as [sc w aft]. unfold wrote. simpl.
  destruct sc as [|[i text | |] sc]; simpl; try done.
  destruct (Py.unpack2 (Py.split1 ":" text)) as [[k v1] | e] eqn:Hs; [| done].
  unfold query_rest.
  destruct (int_config_loop _ _ _ _ _) as [[result' | e] c2] eqn:Hloop; [| done].
  destruct (console.expect _ c2) as [[j | e] c3]; [| done].
  intros [= -> _]. revert key v.
  change (from_lines (Matched i text :: sc) result).
  eapply loop_from_lines; [| | exact Hloop].
  - intros o Ho. by apply elem_of_cons; right.
  - replace ({[k := v1]} : gmap string string) with (<[k := v1]> (∅ : gmap string string)) by done.
    apply from_lines_insert with i text; [| apply list_elem_of_here | done].
    intros key v. by rewrite lookup_empty.
Qed.

Lemma int_config_keys_witness :
  all_bytes no_colon trunk_field = true
  ∧ ∃ i v0 more,
      Matched i (trunk_field +:+ String ":" v0)
        ∈ script (status_console "Disabled" "1")
      ∧ "1" = v0 +:+ more.
Proof.
  apply (int_config_keys a_session "gi1/0/1" (status_console "Disabled" "1")
           status_read {[ native_field := "Disabled"; trunk_field := "1" ]}).
  - by_running.
  - reflexivity.
Defined.

Lemma loop_no_KeyError (sc : list outcome) (w : list call) (aft k : string)
    (r : gmap string string) (e : exn) :
  is_Some (r !! k) →
  (int_config_loop sc w aft k r).1 = Raise e →
  e = TIMEOUT ∨ e = EOF ∨ e = ValueError.
Proof.
  revert w aft k r. induction sc as [|o sc IH]; intros w aft k r Hk.
  { simpl. intros [= <-]. auto. }
  destruct o as [[|[|[|[|n]]]] text | |]; simpl; try (intros [= <-]; by auto).
  - by apply IH.
  - destruct (Py.unpack2 (Py.split1 ":" text)) as [[k' v] | e'] eqn:Hs.
    + apply IH. by rewrite lookup_insert_eq.
    + simpl. intros [= <-]. right; right.
      destruct (Py.split1 ":" text) as [|x [|y [|z l]]]; simpl in Hs; congruence.
  - destruct Hk as [old Hold]. unfold Py.getitem. rewrite Hold.
    apply IH. by rewrite lookup_insert_eq.
  - by apply IH.
Qed.

(** X6: [_int_config] raises nothing but [TIMEOUT], [EOF] and [ValueError]:
    the subscript [result[k]] of a continuation line never raises
    [KeyError], since the current key was stored before. *)
Theorem int_config_exceptions (self : Session) (interface : string)
    (c c' : Console) (e : exn) :
  _int_config self interface c = (Raise e, c') →
  e = TIMEOUT ∨ e = EOF ∨ e = ValueError.
Proof.
  rewrite int_config_query_rest. destruct c as [sc w aft]. unfold wrote. simpl.
  destruct sc as [|[i text | |] sc]; simpl; try (intros [= <- _]; by auto).
  destruct (Py.unpack2 (Py.split1 ":" text)) as [[k v] | e'] eqn:Hs.
  - unfold query_rest.
    pose proof (loop_no_KeyError sc
                  (w ++ [Sendline ("show int sw " +:+ interface)]) text k
                  {[k := v]}) as Hloop.
    destruct (int_config_loop _ _ _ _ _) as [[result | e'] c2].
    + destruct c2 as [[|[| |] sc2] w2 aft2]; simpl; intros [= <- _]; auto.
    + intros [= <- _]. apply Hloop; [by rewrite lookup_singleton_eq | done].
  - intros [= <- _]. right; right.
    destruct (Py.split1 ":" text) as [|x [|y [|z l]]]; simpl in Hs; congruence.
Qed.


Lemma int_config_exceptions_witness :
  EOF = TIMEOUT ∨ EOF = EOF ∨ EOF = ValueError.
Proof.
  apply (int_config_exceptions a_session "gi1/0/1"
           (mkConsole [Matched 0 "Port: gi1/0/1"; Closed] [] "")
           (mkConsole [] [Sendline "show int sw gi1/0/1"] "Port: gi1/0/1")).
  by_running.
Defined.

Lemma commands_app (w1 w2 : list call) :
  commands (w1 ++ w2) = commands w1 ++ commands w2.
Proof. induction w1 as [|[line | s] w1 IH]; simpl; by rewrite ?IH. Qed.

Lemma commands_paging (n : nat) : commands (replicate n (Send " ")) = [].
Proof. by induction n. Qed.

Lemma int_config_commands (self : Session) (interface : string) (c : Console) :
  commands (written (_int_config self interface c).2)
  = commands (written c) ++ ["show int sw " +:+ interface].
Proof.
  destruct (int_config_writes self interface c) as (n & -> & _).
  rewrite commands_app. simpl. by rewrite commands_paging.
Qed.

Lemma port_configs_loop_cons (self : Session) (port : Port) (ports : list Port)
    (acc : gmap Port (gmap string string)) (c : Console) :
  port_configs_loop self (port :: ports) acc c =
    match _int_config self (label port) c with
    | (Ok config, c1) => port_configs_loop self ports (<[port := config]> acc) c1
    | (Raise e, c1) => (Raise e, c1)
    end.
Proof. reflexivity. Qed.

Lemma port_configs_loop_commands (self : Session) (ports : list Port)
    (acc : gmap Port (gmap string string)) (c : Console) :
  ∃ m, m ≤ length ports
       ∧ commands (written (port_configs_loop self ports acc c).2)
         = commands (written c) ++ (show_command <$> take m ports)
       ∧ match (port_configs_loop self ports acc c).1 with
         | Ok result =>
             m = length ports ∧ dom result = dom acc ∪ list_to_set ports
         | Raise _ => 0 < m
         end.
Proof.
  revert acc c. induction ports as [|port ports IH]; intros acc c.
  { exists 0. simpl. rewrite app_nil_r. repeat split; [lia |].
    by rewrite (right_id_L ∅ (∪)). }
  rewrite port_configs_loop_cons.
  pose proof (int_config_commands self (label port) c) as Hcmd.
  destruct (_int_config self (label port) c) as [[config | e] c1]; simpl in Hcmd.
  - destruct (IH (<[port := config]> acc) c1) as (m & Hm & Hw & Hres).
    exists (S m). split; [simpl; lia |]. split.
    + rewrite Hw, Hcmd, <- app_assoc. done.
    + destruct (port_configs_loop self ports (<[port := config]> acc) c1).1;
        [| lia].
      destruct Hres as [-> ->]. split; [done |].
      rewrite dom_insert_L, list_to_set_cons.
      by rewrite (comm_L (∪) {[port]} (dom acc)), <- (assoc_L (∪)).
  - exists 1. simpl. split; [lia |]. split; [| lia].
    rewrite Hcmd. by destruct ports.
Qed.

Lemma port_configs_commands (self : Session) (ports : list Port)
    (c : Console) :
  ∃ m, m ≤ length ports
       ∧ commands (written (_port_configs self ports c).2)
         = commands (written c) ++ (show_command <$> take m ports)
       ∧ match (_port_configs self ports c).1 with
         | Ok result => m = length ports ∧ dom result = list_to_set ports
         | Raise _ => 0 < m
         end.
Proof.
  destruct (port_configs_loop_commands self ports ∅ c) as (m & Hm & Hw & Hres).
  exists m. split; [done |]. split; [done |]. unfold _port_configs.
  destruct (port_configs_loop self ports ∅ c).1; [| done].
  destruct Hres as [-> ->]. split; [done |].
  by rewrite dom_empty_L, (left_id_L ∅ (∪)).
Qed.

(** X8: [_port_configs] queries the ports in the order given, one
    "show int sw" command each. When it returns, every port was queried and
    the dict has exactly the ports given as keys; when it raises, the last
    command written is that of the port whose query failed and no later
    port is queried. *)
Theorem port_configs_in_order (self : Session) (ports : list Port)
    (c : Console) :
  ∃ m, m ≤ length ports
       ∧ commands (written (_port_configs self ports c).2)
         = commands (written c) ++ (show_command <$> take m ports)
       ∧ match (_port_configs self ports c).1 with
         | Ok result => m = length ports ∧ dom result = list_to_set ports
         | Raise _ => 0 < m
         end.
Proof. apply port_configs_commands. Qed.

Lemma networks_loop_total (items : list (Port * gmap string string))
    (acc : gmap Port (list (string * Z))) :
  (∀ p v, (p, v) ∈ items →
          is_Some (v !! native_field) ∧ is_Some (v !! trunk_field)) →
  ∃ result, networks_loop items acc = Ok result.
Proof.
  revert acc. induction items as [|[k v] items IH]; intros acc Hall.
  { by exists acc. }
  destruct (Hall k v) as [[raw Hn] [range_str Ht]]; [apply list_elem_of_here |].
  simpl. rewrite (port_networks_fields v raw range_str Hn Ht). simpl.
  apply IH. intros p w Hin. apply (Hall p). by apply elem_of_cons; right.
Qed.

(** X9: [get_port_networks] returns exactly when [_port_configs] returns
    and the map of every port has both fields "Trunking Native Mode VLAN"
    and "Trunking VLANs Enabled"; the texts of the fields never make it
    raise. *)
Theorem get_port_networks_returns_iff (self : Session) (ports : list Port)
    (c : Console) :
  (∃ result c', get_port_networks self ports c = (Ok result, c'))
  ↔ ∃ port_configs c',
      _port_configs self ports c = (Ok port_configs, c')
      ∧ ∀ p v, port_configs !! p = Some v →
               is_Some (v !! native_field) ∧ is_Some (v !! trunk_field).
Proof.
  split.
  - intros (result & c' & Hget).
    destruct (get_port_networks_Ok self ports c c' result Hget)
      as (port_configs & Hcfg & Hin & _).
    exists port_configs, c'. split; [done |]. intros p v Hp.
    destruct (Hin p v Hp) as (nets & Hnets & _).
    destruct (port_networks_Ok v nets Hnets) as (raw & range_str & -> & ->).
    eauto.
  - intros (port_configs & c' & Hcfg & Hall).
    rewrite get_port_networks_unfold, Hcfg.
    destruct (networks_loop_total (map_to_list port_configs) ∅) as [result ->].
    + intros p v Hin. apply (Hall p). by apply elem_of_map_to_list.
    + by exists result, c'.
Qed.

Lemma get_port_networks_returns_iff_witness :
  ∃ port_configs c',
    _port_configs a_session [uplink] (status_console "Disabled" "1")
    = (Ok port_configs, c')
    ∧ ∀ p v, port_configs !! p = Some v →
             is_Some (v !! native_field) ∧ is_Some (v !! trunk_field).
Proof.
  apply (proj1 (get_port_networks_returns_iff a_session [uplink]
                  (status_console "Disabled" "1"))).
  exists {[ uplink := [("vlan/1", 1%Z)] ]}, status_read. by_running.
Defined.

(** X10: when [get_port_networks] returns, its result has a list for
    exactly the ports given, the console is as [_port_configs] left it, and
    the commands written are the "show int sw" commands of the ports, in
    order: reading the VLANs changes nothing on the switch. *)
Theorem get_port_networks_domain (self : Session) (ports : list Port)
    (c c' : Console) (result : gmap Port (list (string * Z))) :
  get_port_networks self ports c = (Ok result, c') →
  dom result = list_to_set ports
  ∧ c' = (_port_configs self ports c).2
  ∧ commands (written c') = commands (written c) ++ (show_command <$> ports).
Proof.
  intros Hget.
  destruct (get_port_networks_Ok self ports c c' result Hget)
    as (port_configs & Hcfg & Hin & Hout).
  destruct (port_configs_commands self ports c) as (m & Hm & Hw & Hres).
  rewrite Hcfg in Hw, Hres. simpl in Hw, Hres. destruct Hres as [-> Hdom].
  rewrite firstn_all in Hw. rewrite Hcfg. split; [| done].
  rewrite <- Hdom. apply set_eq. intros p. rewrite !elem_of_dom. split.
  - intros [nets Hp]. destruct (Hout p nets Hp) as (v & -> & _). eauto.
  - intros [v Hp]. destruct (Hin p v Hp) as (nets & _ & ->). eauto.
Qed.


Lemma get_port_networks_domain_witness :
  dom ({[ uplink := [("vlan/1", 1%Z)] ]} : gmap Port (list (string * Z)))
  = list_to_set [uplink]
  ∧ status_read
    = (_port_configs a_session [uplink] (status_console "Disabled" "1")).2
  ∧ commands (written status_read)
    = commands (written (status_console "Disabled" "1"))
      ++ (show_command <$> [uplink]).
Proof.
  apply (get_port_networks_domain a_session [uplink]
           (status_console "Disabled" "1")).
  by_running.
Defined.

Lemma all_bytes_app (p : ascii → bool) (a b : string) :
  all_bytes p (a +:+ b) = all_bytes p a && all_bytes p b.
Proof.
  induction a as [|c a IH]; str_simpl; simpl; [done |].
  by rewrite IH, andb_assoc.
Qed.

Lemma all_bytes_impl (p q : ascii → bool) (s : string) :
  (∀ c, p c = true → q c = true) →
  all_bytes p s = true → all_bytes q s = true.
Proof.
  intros Hpq. induction s as [|c s IH]; simpl; [done |].
  intros [Hc Hs]%andb_prop. by rewrite (Hpq c Hc), IH.
Qed.

Lemma space_plain (c : ascii) : Py.is_space c = true → plain c = true.
Proof. destruct c as [[] [] [] [] [] [] [] []]; simpl; done. Qed.

Lemma digit_plain (c : ascii) : Py.is_digit c = true → plain c = true.
Proof. destruct c as [[] [] [] [] [] [] [] []]; simpl; done. Qed.

Lemma split_plain (sep : ascii) (x : string) :
  all_bytes (λ c, negb (bool_decide (c = sep))) x = true →
  Py.split sep x = [x].
Proof.
  induction x as [|c x IH]; simpl; [done |].
  intros [Hc Hx]%andb_prop. apply negb_true_iff, bool_decide_eq_false in Hc.
  rewrite decide_False by done. by rewrite IH.
Qed.

Lemma split_app_sep (sep : ascii) (x y : string) :
  all_bytes (λ c, negb (bool_decide (c = sep))) x = true →
  Py.split sep (x +:+ String sep y) = x :: Py.split sep y.
Proof.
  induction x as [|c x IH]; str_simpl; simpl.
  { intros _. by rewrite decide_True. }
  intros [Hc Hx]%andb_prop. apply negb_true_iff, bool_decide_eq_false in Hc.
  rewrite decide_False by done. by rewrite IH.
Qed.

Lemma split_join (sep : ascii) (xs : list string) :
  xs ≠ [] →
  Forall (λ x, all_bytes (λ c, negb (bool_decide (c = sep))) x = true) xs →
  Py.split sep (join (String sep "") xs) = xs.
Proof.
  intros Hne Hall. induction Hall as [|x xs Hx Hxs IH]; [done |].
  destruct xs as [|y xs]; [by apply split_plain |].
  change (join (String sep "") (x :: y :: xs))
    with (x +:+ String sep "" +:+ join (String sep "") (y :: xs)).
  str_simpl. rewrite split_app_sep by done. by rewrite IH.
Qed.

Lemma token_text_plain (t : string * string * string) :
  token_ok t = true → all_bytes plain (token_text t) = true.
Proof.
  destruct t as [[ws ds] rest]. unfold token_ok, token_text.
  intros [[[[Hws _]%andb_prop Hds]%andb_prop _]%andb_prop Hrest]%andb_prop.
  rewrite !all_bytes_app, Hrest.
  rewrite (all_bytes_impl _ _ ws space_plain Hws).
  by rewrite (all_bytes_impl _ _ ds digit_plain Hds).
Qed.

Lemma token_networks_ok (t : string * string * string) :
  token_ok t = true → token_networks (token_text t) = [token_entry t].
Proof.
  destruct t as [[ws ds] rest]. unfold token_ok, token_text, token_entry.
  intros [[[[Hws Hne]%andb_prop Hds]%andb_prop Hrest]%andb_prop _]%andb_prop.
  apply negb_true_iff, bool_decide_eq_false in Hne.
  apply negb_true_iff in Hrest.
  unfold token_networks. by rewrite match_num_strip.
Qed.

Lemma trunked_networks_tokens (toks : list (string * string * string)) :
  forallb token_ok toks = true →
  trunked_networks (join "," (token_text <$> toks)) = token_entry <$> toks.
Proof.
  intros Hall. destruct toks as [|t0 toks]; [done |].
  unfold trunked_networks. rewrite split_join; [| done |].
  - induction (t0 :: toks) as [|t ts IH]; [done |].
    simpl in Hall. apply andb_prop in Hall as [Ht Hts].
    rewrite fmap_cons. rewrite fmap_cons. simpl flat_map.
    rewrite IH by done. rewrite split_plain.
    + simpl. by rewrite token_networks_ok, app_nil_r.
    + apply all_bytes_impl with plain; [| by apply token_text_plain].
      intros c [_ Hc]%andb_prop. done.
  - apply Forall_fmap, Forall_forall. intros t Ht.
    rewrite forallb_forall in Hall. simpl.
    apply all_bytes_impl with plain;
      [| apply token_text_plain, Hall; by apply list_elem_of_In].
    intros c [Hc _]%andb_prop. done.
Qed.


Lemma all_bytes_join (p : ascii → bool) (sep : string) (xs : list string) :
  all_bytes p sep = true → Forall (λ x, all_bytes p x = true) xs →
  all_bytes p (join sep xs) = true.
Proof.
  intros Hsep Hall. induction Hall as [|x xs Hx Hxs IH]; [done |].
  destruct xs as [|y xs]; [done |].
  change (join sep (x :: y :: xs)) with (x +:+ sep +:+ join sep (y :: xs)).
  by rewrite !all_bytes_app, Hx, Hsep, IH.
Qed.

Lemma range_networks (ts : list (string * string * string)) :
  forallb token_ok ts = true →
  flat_map token_networks (Py.split "-" (range_text ts)) = token_entry <$> ts.
Proof.
  intros Hall. destruct ts as [|t0 ts]; [done |].
  unfold range_text. rewrite split_join; [| done |].
  - induction (t0 :: ts) as [|t ts' IH]; [done |].
    simpl in Hall. apply andb_prop in Hall as [Ht Hts].
    rewrite !fmap_cons. simpl flat_map.
    by rewrite IH, token_networks_ok.
  - apply Forall_fmap, Forall_forall. intros t Ht.
    rewrite forallb_forall in Hall. simpl.
    apply all_bytes_impl with plain;
      [| apply token_text_plain, Hall; by apply list_elem_of_In].
    intros c [_ Hc]%andb_prop. done.
Qed.

Lemma range_text_no_comma (ts : list (string * string * string)) :
  forallb token_ok ts = true →
  all_bytes (λ c, negb (bool_decide (c = ","%char))) (range_text ts) = true.
Proof.
  intros Hall. apply all_bytes_join; [done |].
  apply Forall_fmap, Forall_forall. intros t Ht.
  rewrite forallb_forall in Hall. simpl.
  apply all_bytes_impl with plain;
    [| apply token_text_plain, Hall; by apply list_elem_of_In].
  intros c [Hc _]%andb_prop. done.
Qed.

(** X11: a "Trunking VLANs Enabled" value made of range tokens separated
    by commas, each made of sub-tokens separated by "-", each sub-token being
    blanks, the digits of an id and an annotation that does not start with a
    digit and holds no separator, gives one entry per sub-token, in order:
    ("vlan/<digits>", value of the digits). *)
Theorem trunked_networks_ranges
    (groups : list (list (string * string * string))) :
  forallb (forallb token_ok) groups = true →
  trunked_networks (join "," (range_text <$> groups))
  = flat_map (λ ts : list (string * string * string), token_entry <$> ts)
             groups.
Proof.
  intros Hall. destruct groups as [|g0 groups]; [done |].
  unfold trunked_networks. rewrite split_join; [| done |].
  - induction (g0 :: groups) as [|g gs IH]; [done |].
    simpl in Hall. apply andb_prop in Hall as [Hg Hgs].
    rewrite !fmap_cons. simpl. by rewrite IH, range_networks.
  - apply Forall_fmap, Forall_forall. intros g Hg.
    rewrite forallb_forall in Hall. simpl.
    apply range_text_no_comma, Hall. by apply list_elem_of_In.
Qed.

Lemma trunked_networks_ranges_witness :
  trunked_networks
    (join "," (range_text <$> [[("", "1", "")];
                               [(" ", "5", ""); ("", "7", "(Inactive)")]]))
  = [("vlan/1", 1%Z); ("vlan/5", 5%Z); ("vlan/7", 7%Z)].
Proof.
  apply (trunked_networks_ranges
           [[("", "1", "")]; [(" ", "5", ""); ("", "7", "(Inactive)")]]).
  reflexivity.
Defined.

Lemma pretty_N_char_digit (y : N) : Py.is_digit (pretty_N_char y) = true.
Proof.
  destruct y as [|p]; [done |].
  do 4 (destruct p as [p | p |]; try done).
Qed.

Lemma pretty_N_char_zero (y : N) :
  (y < 10)%N → pretty_N_char y = "0"%char → y = 0%N.
Proof.
  intros Hy. destruct y as [|p]; [done |].
  do 4 (destruct p as [p | p |]; try done); lia.
Qed.

Lemma pretty_N_go_digits (x : N) (s : string) :
  all_bytes Py.is_digit s = true →
  all_bytes Py.is_digit (pretty_N_go x s) = true.
Proof.
  revert s. induction (N.lt_wf_0 x) as [x _ IH]. intros s Hs.
  destruct (decide (x = 0%N)) as [-> | Hx]; [done |].
  rewrite pretty_N_go_step by lia.
  apply IH; [apply N.div_lt; lia |].
  simpl. by rewrite pretty_N_char_digit.
Qed.

Lemma pretty_N_go_head (x : N) (s : string) :
  (0 < x)%N →
  ∃ c r, pretty_N_go x s = String c r ∧ c ≠ "0"%char.
Proof.
  revert s. induction (N.lt_wf_0 x) as [x _ IH]. intros s Hx.
  rewrite pretty_N_go_step by done.
  destruct (decide (x `div` 10 = 0)%N) as [Hz | Hnz].
  - rewrite Hz, pretty_N_go_0. eexists _, _. split; [done |].
    intros Hc. apply pretty_N_char_zero in Hc; [| by apply N.mod_lt].
    apply N.div_small_iff in Hz; [| done].
    rewrite N.mod_small in Hc by done. lia.
  - apply IH; [apply N.div_lt; lia | by apply N.neq_0_lt_0].
Qed.

Lemma pretty_N_shape (n : N) :
  pretty n ≠ "" ∧ all_bytes Py.is_digit (pretty n) = true
  ∧ canonical (pretty n) = true.
Proof.
  unfold pretty, pretty_N. destruct (decide (n = 0%N)) as [-> | Hn]; [done |].
  destruct (pretty_N_go_head n "") as (c & r & Heq & Hc); [lia |].
  split; [by rewrite Heq |]. split; [by apply pretty_N_go_digits |].
  rewrite Heq. simpl. destruct c as [[] [] [] [] [] [] [] []]; try done.
Qed.

Lemma int_pretty (n : N) : Py.int (pretty n) = Z.of_N n.
Proof.
  destruct (pretty_N_shape n) as (Hne & Hds & Hcan).
  apply (inj pretty).
  rewrite pretty_int by done.
  rewrite (pretty_Z_to_N (Z.of_N n)) by lia. by rewrite N2Z.id.
Qed.

(** X12: a list of VLAN ids written in decimal and joined by commas is
    read back as exactly these ids, each named "vlan/" followed by its
    decimal writing. *)
Theorem trunked_networks_decimal (ids : list N) :
  trunked_networks (join "," (pretty <$> ids))
  = (λ n, ("vlan/" +:+ pretty n, Z.of_N n)) <$> ids.
Proof.
  pose proof (trunked_networks_tokens ((λ n, ("", pretty n, "")) <$> ids)) as H.
  rewrite <- !list_fmap_compose in H.
  rewrite (list_fmap_ext (token_text ∘ (λ n : N, ("", pretty n, ""))) pretty ids)
    in H by (intros i n _; simpl; by rewrite append_nil_r).
  rewrite H.
  - apply list_fmap_ext. intros i n _. simpl. by rewrite int_pretty.
  - apply forallb_forall. intros t [n [-> _]]%list_elem_of_In%list_elem_of_fmap.
    destruct (pretty_N_shape n) as (Hne & Hds & _).
    simpl. rewrite Hds. by rewrite bool_decide_eq_false_2.
Qed.

